(** * EV charge scheduler: a shallow embedding of [utils.py] and [schedule.py]

    The development follows the two source files.

    - [Utils] embeds [utils.py]: [next_datetime_with_time], [duration] and
      [total_duration], over a model of the [datetime] and [timedelta] values
      the code computes with.
    - [Schedule] embeds [schedule.py]: [off_peak_and_peak_periods],
      [optimize_co2], [simplify_periods] and [schedule].

    Modelling choices.

    - A [timedelta] is its exact number of microseconds, an integer.  Its
      range ([OverflowError] when the normalised day count leaves
      -999999999..999999999) is not checked by the constructors of the
      model; [timedelta_in_range] states it, and a statement that ranges
      over every charge time carries it as a hypothesis.
    - A timezone-aware [datetime] with a fixed offset is the microsecond count
      of its local calendar fields together with its UTC offset.  Python
      compares, subtracts and takes [max]/[min] of aware datetimes on the UTC
      instant; [replace] and the field accessors act on the local fields.
      The year range 1..9999 of [datetime] (an [OverflowError] beyond it) is
      not modelled: the time line is unbounded.
    - [parse_time] splits and converts an "HH:MM" string; a wall-clock time
      enters the model as the pair of integers it yields.  [replace] raises
      [ValueError] on an hour outside 0..23 or a minute outside 0..59, which
      the model returns as [None].
    - [load_co2_measures] reads a file; the list it yields is an argument of
      [schedule].  An intensity is an integer.
    - [sorted] is stable; it is modelled by a stable insertion sort on an
      integer key. *)

From Stdlib Require Import ZArith List Lia Bool Permutation Sorted.
From Stdlib Require Import Ascii.
Import ListNotations.
Open Scope Z_scope.

(* ================================================================= *)
(** ** The datetime substrate and [utils.py] *)

Module Utils.

(** [timedelta]: a signed number of microseconds. *)
Definition timedelta := Z.

Definition US_PER_MINUTE : Z := 60000000.
Definition US_PER_HOUR : Z := 3600000000.
Definition US_PER_DAY : Z := 86400000000.

(** [timedelta(minutes=n)], [timedelta(days=n)], [timedelta(weeks=n)]. *)
Definition timedelta_minutes (n : Z) : timedelta := n * US_PER_MINUTE.
Definition timedelta_days (n : Z) : timedelta := n * US_PER_DAY.
Definition timedelta_weeks (n : Z) : timedelta := n * (7 * US_PER_DAY).

(** An aware datetime: the local fields as one microsecond count
    ([toordinal() * US_PER_DAY] plus the time of day) and the UTC offset. *)
Record datetime : Type := mk_datetime {
  local_us : Z;
  utcoffset : timedelta
}.

(** The instant on the UTC time line: what [==], [<], [<=], [-], [max] and
    [min] look at. *)
Definition utc (d : datetime) : Z := local_us d - utcoffset d.

(** Field accessors. *)
Definition hour (d : datetime) : Z := (local_us d / US_PER_HOUR) mod 24.
Definition minute (d : datetime) : Z := (local_us d / US_PER_MINUTE) mod 60.
Definition second (d : datetime) : Z := (local_us d / 1000000) mod 60.
Definition microsecond (d : datetime) : Z := local_us d mod 1000000.
Definition toordinal (d : datetime) : Z := local_us d / US_PER_DAY.

(** The proleptic Gregorian ordinal of a date, as the [datetime] module
    computes it. *)
Definition is_leap (year : Z) : bool :=
  (year mod 4 =? 0) && (negb (year mod 100 =? 0) || (year mod 400 =? 0)).

Definition days_before_year (year : Z) : Z :=
  let y := year - 1 in y * 365 + y / 4 - y / 100 + y / 400.

Definition days_in_month (year month : Z) : Z :=
  if month =? 2 then (if is_leap year then 29 else 28)
  else if (month =? 4) || (month =? 6) || (month =? 9) || (month =? 11)
       then 30 else 31.

Fixpoint days_before_month_aux (year : Z) (months : nat) : Z :=
  match months with
  | O => 0
  | S k => days_before_month_aux year k + days_in_month year (Z.of_nat (S k))
  end.

Definition days_before_month (year month : Z) : Z :=
  days_before_month_aux year (Z.to_nat (month - 1)).

Definition ymd2ord (year month day : Z) : Z :=
  days_before_year year + days_before_month year month + day.

(** [datetime(year, month, day, hour, minute, second, microsecond, tz)]
    with a fixed offset [off]. *)
Definition datetime_of (year month day hh mm ss us : Z) (off : timedelta)
  : datetime :=
  mk_datetime (ymd2ord year month day * US_PER_DAY + hh * US_PER_HOUR
               + mm * US_PER_MINUTE + ss * 1000000 + us) off.

(** [a + td]: the local fields move, the tzinfo stays. *)
Definition dt_add (a : datetime) (td : timedelta) : datetime :=
  mk_datetime (local_us a + td) (utcoffset a).

(** [a - b] on two aware datetimes. *)
Definition dt_sub (a b : datetime) : timedelta := utc a - utc b.

Definition dt_eqb (a b : datetime) : bool := utc a =? utc b.
Definition dt_ltb (a b : datetime) : bool := utc a <? utc b.
Definition dt_leb (a b : datetime) : bool := utc a <=? utc b.

(** [max(a, b)] keeps [a] unless [b > a]; [min(a, b)] keeps [a] unless
    [b < a]. *)
Definition dt_max (a b : datetime) : datetime := if dt_ltb a b then b else a.
Definition dt_min (a b : datetime) : datetime := if dt_ltb b a then b else a.

(** A wall-clock time as [parse_time] returns it: (hour, minute). *)
Definition wall_clock : Type := (Z * Z)%type.

Definition valid_time (t : wall_clock) : Prop :=
  0 <= fst t < 24 /\ 0 <= snd t < 60.

Definition valid_timeb (t : wall_clock) : bool :=
  (0 <=? fst t) && (fst t <? 24) && (0 <=? snd t) && (snd t <? 60).

(** [current.replace(hour=hour, minute=minute)]: the date, the second, the
    microsecond and the tzinfo are kept. *)
Definition replace (current : datetime) (hh mm : Z) : option datetime :=
  if valid_timeb (hh, mm) then
    Some (mk_datetime (local_us current
                       + (hh - hour current) * US_PER_HOUR
                       + (mm - minute current) * US_PER_MINUTE)
                      (utcoffset current))
  else None.

(** [next_datetime_with_time(current, time)]. *)
Definition next_datetime_with_time (current : datetime) (time : wall_clock)
  : option datetime :=
  let '(hh, mm) := time in
  match replace current hh mm with
  | None => None
  | Some this_time_same_day =>
      if dt_leb this_time_same_day current
      then Some (dt_add this_time_same_day (timedelta_days 1))
      else Some this_time_same_day
  end.

(** A period is a pair of datetimes. *)
Definition period : Type := (datetime * datetime)%type.

(** [duration(period)]. *)
Definition duration (p : period) : timedelta :=
  let '(period_from, period_to) := p in dt_sub period_to period_from.

(** [total_duration(periods)]: [sum] folds from the left, from
    [timedelta()]. *)
Definition total_duration (periods : list period) : timedelta :=
  fold_left Z.add (map duration periods) 0.

(** One record of [load_co2_measures()]. *)
Record co2_measure : Type := mk_co2_measure {
  co2_from : datetime;
  co2_to : datetime;
  intensity : Z
}.

End Utils.

(* ================================================================= *)
(** ** [schedule.py] *)

Module Schedule.
Import Utils.

(** [sorted(xs, key=...)]: a stable sort, here by insertion. *)
Section Sorted.
Context {A : Type} (key : A -> Z).

Fixpoint insert_by (x : A) (l : list A) : list A :=
  match l with
  | [] => [x]
  | y :: l' => if key x <=? key y then x :: y :: l'
               else y :: insert_by x l'
  end.

Fixpoint sorted (l : list A) : list A :=
  match l with
  | [] => []
  | x :: l' => insert_by x (sorted l')
  end.
End Sorted.

(** The key [lambda p: p[0]]: datetimes are ordered by their instant. *)
Definition period_start (p : period) : Z := utc (fst p).

(** [simplify_periods(periods)]: sort on [p[0]]. *)
Definition simplify_periods (periods : list period) : list period :=
  sorted period_start periods.

(** One dictionary of the comprehension in [optimize_co2]. *)
Record co2_forecast : Type := mk_co2_forecast {
  fc_from : datetime;
  fc_to : datetime;
  forecast : Z
}.

Definition shift_to_forecast : timedelta := timedelta_weeks 1.

(** The comprehension: for each measure, for each period, keep the pair
    when the shifted measure touches the period, clipped to the period. *)
Definition clip (co2 : co2_measure) (p : period) : list co2_forecast :=
  let '(period_from, period_to) := p in
  if dt_leb (dt_add (co2_from co2) shift_to_forecast) period_to
     && dt_leb period_from (dt_add (co2_to co2) shift_to_forecast)
  then [mk_co2_forecast
          (dt_max (dt_add (co2_from co2) shift_to_forecast) period_from)
          (dt_min (dt_add (co2_to co2) shift_to_forecast) period_to)
          (intensity co2)]
  else [].

Definition co2_forecasts (periods : list period)
           (co2_measures : list co2_measure) : list co2_forecast :=
  flat_map (fun co2 => flat_map (clip co2) periods) co2_measures.

(** [sorted(co2_forecasts, key=lambda co2: co2["forecast"])]. *)
Definition sorted_co2_forecasts (periods : list period)
           (co2_measures : list co2_measure) : list co2_forecast :=
  sorted forecast (co2_forecasts periods co2_measures).

(** [co2_period = (co2["from"], co2["to"])]. *)
Definition co2_period (co2 : co2_forecast) : period :=
  (fc_from co2, fc_to co2).

(** The loop of [optimize_co2]: the periods appended, in order. *)
Fixpoint charge_loop (remaining_charge_timedelta : timedelta)
         (fcs : list co2_forecast) : list period :=
  match fcs with
  | [] => []
  | co2 :: rest =>
      if remaining_charge_timedelta <=? 0 then []
      else
        (if duration (co2_period co2) <? remaining_charge_timedelta
         then co2_period co2
         else (fc_from co2,
               dt_add (fc_from co2) remaining_charge_timedelta))
        :: charge_loop
             (remaining_charge_timedelta - duration (co2_period co2)) rest
  end.

(** [optimize_co2(periods=, charge_time=, co2_measures=)]. *)
Definition optimize_co2 (periods : list period) (charge_time : timedelta)
           (co2_measures : list co2_measure) : list period :=
  if total_duration periods <=? charge_time then periods
  else
    simplify_periods
      (charge_loop charge_time (sorted_co2_forecasts periods co2_measures)).

(** [off_peak_and_peak_periods(plug_in, ready_by, off_peak_start,
    off_peak_end)]. *)
Definition off_peak_and_peak_periods (plug_in ready_by : datetime)
           (off_peak_start off_peak_end : wall_clock)
  : option (list period * list period) :=
  match next_datetime_with_time plug_in off_peak_start with
  | None => None
  | Some next_off_peak_start =>
    match next_datetime_with_time plug_in off_peak_end with
    | None => None
    | Some next_off_peak_end =>
      Some
        (if dt_eqb next_off_peak_start next_off_peak_end then
           ([], [(plug_in, ready_by)])
         else if dt_ltb next_off_peak_start next_off_peak_end then
           if dt_ltb next_off_peak_start ready_by then
             if dt_ltb next_off_peak_end ready_by then
               ([(next_off_peak_start, next_off_peak_end)],
                [(plug_in, next_off_peak_start);
                 (next_off_peak_end, ready_by)])
             else
               ([(next_off_peak_start, ready_by)],
                [(plug_in, next_off_peak_start)])
           else
             ([], [(plug_in, ready_by)])
         else
           if dt_ltb next_off_peak_start ready_by then
             ([(plug_in, next_off_peak_end);
               (next_off_peak_start, ready_by)],
              [(next_off_peak_end, next_off_peak_start)])
           else
             if dt_ltb next_off_peak_end ready_by then
               ([(plug_in, next_off_peak_end)],
                [(next_off_peak_end, ready_by)])
             else
               ([(plug_in, ready_by)], [(plug_in, ready_by)]))
    end
  end.

(** The list [charging_periods] of [schedule], before the final sort. *)
Definition charging_periods (off_peak_periods peak_periods : list period)
           (charge_time : timedelta) (co2_measures : list co2_measure)
  : list period :=
  let off_peak_periods_duration := total_duration off_peak_periods in
  if charge_time <=? off_peak_periods_duration then
    optimize_co2 off_peak_periods charge_time co2_measures
  else
    let remaining_charge_timedelta :=
      charge_time - off_peak_periods_duration in
    off_peak_periods
      ++ optimize_co2 peak_periods remaining_charge_timedelta co2_measures.

(** [schedule(ready_by=, charge_time=, plug_in_time=, off_peak_start=,
    off_peak_end=)].  [plug_in_datetime] is the parsed [plug_in_time];
    [co2_measures] is what [load_co2_measures()] returns. *)
Definition schedule (ready_by : wall_clock) (charge_time : Z)
           (plug_in_datetime : datetime)
           (off_peak_start off_peak_end : wall_clock)
           (co2_measures : list co2_measure) : option (list period) :=
  let charge_time := timedelta_minutes charge_time in
  match next_datetime_with_time plug_in_datetime ready_by with
  | None => None
  | Some ready_by_datetime =>
    if dt_sub ready_by_datetime plug_in_datetime <=? charge_time then
      Some [(plug_in_datetime, ready_by_datetime)]
    else
      match off_peak_and_peak_periods plug_in_datetime ready_by_datetime
              off_peak_start off_peak_end with
      | None => None
      | Some (off_peak_periods, peak_periods) =>
          Some (simplify_periods
                  (charging_periods off_peak_periods peak_periods
                     charge_time co2_measures))
      end
  end.

End Schedule.

(* ================================================================= *)
(** ** [parse_time] and the string interface of [utils.py] *)

Module TimeStrings.
Import Utils.

Section ParseTime.
(** A [str] is the list of its characters.  [int] is the builtin: it
    returns the integer a string denotes, or raises [ValueError] ([None]). *)
Context {char : Type} (int : list char -> option Z).

(** [time[:-3]]: all but the last three characters, nothing when there are
    fewer than three. *)
Definition all_but_last3 (time : list char) : list char :=
  firstn (length time - 3) time.

(** [time[-2:]]: the last two characters, the whole string when it is
    shorter. *)
Definition last2 (time : list char) : list char :=
  skipn (length time - 2) time.

(** [parse_time(time)]: [int(time[:-3]), int(time[-2:])], the hour being
    converted first. *)
Definition parse_time (time : list char) : option wall_clock :=
  match int (all_but_last3 time) with
  | None => None
  | Some hh =>
      match int (last2 time) with
      | None => None
      | Some mm => Some (hh, mm)
      end
  end.

(** [next_datetime_with_time(current, time)] on the string it is given. *)
Definition next_datetime_with_time_str (current : datetime)
           (time : list char) : option datetime :=
  match parse_time time with
  | None => None
  | Some t => next_datetime_with_time current t
  end.
End ParseTime.

End TimeStrings.

Import Utils Schedule TimeStrings.

(* ================================================================= *)
(** ** Vocabulary of the statements *)

(** [q] lies within [p]. *)
Definition within (q p : period) : Prop :=
  utc (fst p) <= utc (fst q) /\ utc (snd q) <= utc (snd p).

(** The data model's interval: start no later than end. *)
Definition wf_period (p : period) : Prop := utc (fst p) <= utc (snd p).

(** A forecast record with [from] no later than [to]. *)
Definition wf_measure (m : co2_measure) : Prop :=
  utc (co2_from m) <= utc (co2_to m).

(** A period with start strictly before end. *)
Definition proper (p : period) : Prop := utc (fst p) < utc (snd p).

(** The instant [t] belongs to the half-open period [p]. *)
Definition covers (p : period) (t : Z) : Prop :=
  utc (fst p) <= t < utc (snd p).

(** The total duration of the clipped forecast entries. *)
Definition forecast_total (fcs : list co2_forecast) : timedelta :=
  total_duration (map co2_period fcs).

(** The order a sort on [key] establishes. *)
Definition key_le {A : Type} (key : A -> Z) (a b : A) : Prop :=
  key a <= key b.

(** The greedy consumption as the specification words it: with [remaining]
    still positive, an entry shorter than [remaining] is taken whole and its
    duration subtracted; any other entry gives a prefix of exactly
    [remaining], and the consumption stops. *)
Inductive greedy_consume : timedelta -> list co2_forecast -> list period -> Prop :=
| greedy_met (r : timedelta) (fcs : list co2_forecast) :
    r <= 0 -> greedy_consume r fcs []
| greedy_exhausted (r : timedelta) :
    0 < r -> greedy_consume r [] []
| greedy_whole (r : timedelta) (fc : co2_forecast)
               (fcs : list co2_forecast) (out : list period) :
    0 < r -> duration (co2_period fc) < r ->
    greedy_consume (r - duration (co2_period fc)) fcs out ->
    greedy_consume r (fc :: fcs) (co2_period fc :: out)
| greedy_prefix (r : timedelta) (fc : co2_forecast)
                (fcs : list co2_forecast) :
    0 < r -> r <= duration (co2_period fc) ->
    greedy_consume r (fc :: fcs) [(fc_from fc, dt_add (fc_from fc) r)].

(** Two periods share no instant. *)
Definition disjoint (p q : period) : Prop :=
  forall t, ~ (covers p t /\ covers q t).

(** The two lists partition [[plug_in, ready_by)]: an instant is covered by
    one of the periods exactly when it is in the window, and no two of the
    periods overlap. *)
Definition partitions (plug_in ready_by : datetime)
           (off_peak_periods peak_periods : list period) : Prop :=
  (forall t, (exists p, In p (off_peak_periods ++ peak_periods) /\ covers p t)
             <-> utc plug_in <= t < utc ready_by)
  /\ ForallOrdPairs disjoint (off_peak_periods ++ peak_periods).

(** The seven leaves of the case analysis, [s] and [e] being the next
    occurrences of the start and of the end of the off-peak window. *)
Inductive partition_shape (plug_in ready_by s e : datetime)
  : list period -> list period -> Prop :=
| shape_degenerate :
    utc s = utc e ->
    partition_shape plug_in ready_by s e [] [(plug_in, ready_by)]
| shape_inside :
    utc s < utc e -> utc s < utc ready_by -> utc e < utc ready_by ->
    partition_shape plug_in ready_by s e
      [(s, e)] [(plug_in, s); (e, ready_by)]
| shape_clipped :
    utc s < utc e -> utc s < utc ready_by -> utc ready_by <= utc e ->
    partition_shape plug_in ready_by s e [(s, ready_by)] [(plug_in, s)]
| shape_after :
    utc s < utc e -> utc ready_by <= utc s ->
    partition_shape plug_in ready_by s e [] [(plug_in, ready_by)]
| shape_wrap_both :
    utc e < utc s -> utc s < utc ready_by ->
    partition_shape plug_in ready_by s e
      [(plug_in, e); (s, ready_by)] [(e, s)]
| shape_wrap_head :
    utc e < utc s -> utc ready_by <= utc s -> utc e < utc ready_by ->
    partition_shape plug_in ready_by s e
      [(plug_in, e)] [(e, ready_by)]
| shape_wrap_span :
    utc e < utc s -> utc ready_by <= utc s -> utc ready_by <= utc e ->
    partition_shape plug_in ready_by s e
      [(plug_in, ready_by)] [(plug_in, ready_by)].

(** The forecasts cover what the allocator is asked for: the off-peak
    periods when they suffice (or they total the charge time exactly), the
    peak periods for the rest otherwise. *)
Definition allocation_covered (off peak : list period) (r : timedelta)
           (ms : list co2_measure) : Prop :=
  (r <= total_duration off ->
   total_duration off = r \/ r <= forecast_total (co2_forecasts off ms))
  /\ (total_duration off < r ->
      r - total_duration off <= forecast_total (co2_forecasts peak ms)).

(* ================================================================= *)
(** ** Concrete inputs *)

(** The plug-in instant of the script's own call, 2019-10-04T18:42:12Z. *)
Definition plug_in_example : datetime := datetime_of 2019 10 4 18 42 12 0 0.

(** A plug-in instant on a whole minute, 2019-10-04T18:42:00Z, and the next
    07:00 after it. *)
Definition plug_in_minute : datetime := datetime_of 2019 10 4 18 42 0 0 0.
Definition deadline_minute : datetime := datetime_of 2019 10 5 7 0 0 0 0.

(** Two forecast records of the week before: 00:00-00:30 at intensity 100
    and 00:30-07:00 at intensity 200, on 2019-09-28. *)
Definition measures_example : list co2_measure :=
  [ mk_co2_measure (datetime_of 2019 9 28 0 0 0 0 0)
                   (datetime_of 2019 9 28 0 30 0 0 0) 100;
    mk_co2_measure (datetime_of 2019 9 28 0 30 0 0 0)
                   (datetime_of 2019 9 28 7 0 0 0 0) 200 ].

(** Plugged in at 2019-10-04T23:00Z, to be ready at 2019-10-05T05:00Z. *)
Definition plug_in_late : datetime := datetime_of 2019 10 4 23 0 0 0 0.
Definition deadline_early : datetime := datetime_of 2019 10 5 5 0 0 0 0.

(** One candidate period, 2019-10-05 00:30-07:00. *)
Definition candidates_example : list period :=
  [(datetime_of 2019 10 5 0 30 0 0 0, deadline_minute)].

(** The range of a [timedelta]: the constructor normalises to days,
    seconds and microseconds and raises [OverflowError] when the day count
    leaves -999999999..999999999. *)
Definition timedelta_in_range (td : timedelta) : Prop :=
  -999999999 <= td / US_PER_DAY <= 999999999.

(** The time a forecast record, moved on by one week (604800000000
    microseconds), shares with a period: the length of the intersection of
    the two intervals, nothing when they do not meet.  It is written on the
    instants alone, without the comprehension of [optimize_co2]. *)
Definition overlap (m : co2_measure) (p : period) : timedelta :=
  Z.max 0
    (Z.min (utc (co2_to m) + 604800000000) (utc (snd p))
     - Z.max (utc (co2_from m) + 604800000000) (utc (fst p))).

(** The total duration of the shifted-and-clipped forecast sub-intervals, as
    the specification words it: one intersection per pair of a record and a
    candidate. *)
Definition overlap_total (periods : list period) (ms : list co2_measure)
  : timedelta :=
  fold_right Z.add 0
    (map (fun m => fold_right Z.add 0 (map (overlap m) periods)) ms).

(** What taking [amounts] from the entries [fcs], position by position,
    emits: each amount weighted by the intensity of its entry. *)
Fixpoint weighted (amounts : list timedelta) (fcs : list co2_forecast) : Z :=
  match amounts, fcs with
  | a :: amounts', fc :: fcs' => a * forecast fc + weighted amounts' fcs'
  | _, _ => 0
  end.

(** An allocation takes from each entry no more than its duration. *)
Definition feasible (amounts : list timedelta) (fcs : list co2_forecast)
  : Prop :=
  Forall2 (fun a fc => 0 <= a <= duration (co2_period fc)) amounts fcs.

(** The total of an allocation. *)
Definition amount_sum (amounts : list timedelta) : timedelta :=
  fold_right Z.add 0 amounts.

(** A stand-in for the builtin [int] on ASCII strings of decimal digits,
    enough to run [parse_time] on "HH:MM" strings: it reads the digits and
    refuses anything else, the empty string included. *)
Definition digit_value (c : Ascii.ascii) : option Z :=
  let n := Z.of_nat (Ascii.nat_of_ascii c) in
  if (48 <=? n) && (n <=? 57) then Some (n - 48) else None.

Fixpoint digits_value (acc : Z) (l : list Ascii.ascii) : option Z :=
  match l with
  | [] => Some acc
  | c :: l' =>
      match digit_value c with
      | None => None
      | Some d => digits_value (acc * 10 + d) l'
      end
  end.

Definition int_of_digits (l : list Ascii.ascii) : option Z :=
  match l with
  | [] => None
  | _ => digits_value 0 l
  end.

(* ================================================================= *)
(** ** Datetime arithmetic *)

Section DatetimeFacts.

Lemma utc_dt_add (a : datetime) (td : timedelta) :
  utc (dt_add a td) = utc a + td.
Proof. unfold utc, dt_add; simpl; lia. Qed.

Lemma utc_dt_max (a b : datetime) : utc (dt_max a b) = Z.max (utc a) (utc b).
Proof.
  unfold dt_max, dt_ltb. destruct (Z.ltb_spec (utc a) (utc b)); lia.
Qed.

Lemma utc_dt_min (a b : datetime) : utc (dt_min a b) = Z.min (utc a) (utc b).
Proof.
  unfold dt_min, dt_ltb. destruct (Z.ltb_spec (utc b) (utc a)); lia.
Qed.

Lemma valid_timeb_iff (t : wall_clock) : valid_timeb t = true <-> valid_time t.
Proof.
  unfold valid_timeb, valid_time.
  rewrite !andb_true_iff, !Z.leb_le, !Z.ltb_lt. tauto.
Qed.

Lemma hour_range (d : datetime) : 0 <= hour d < 24.
Proof. unfold hour. apply Z.mod_pos_bound. lia. Qed.

Lemma minute_range (d : datetime) : 0 <= minute d < 60.
Proof. unfold minute. apply Z.mod_pos_bound. lia. Qed.

(** [replace] succeeds exactly on an hour in 0..23 and a minute in 0..59,
    and moves the instant by the difference of the two fields. *)
Lemma replace_some (c : datetime) (hh mm : Z) :
  valid_time (hh, mm) ->
  exists r, replace c hh mm = Some r
            /\ utcoffset r = utcoffset c
            /\ local_us r = local_us c + (hh - hour c) * US_PER_HOUR
                            + (mm - minute c) * US_PER_MINUTE.
Proof.
  intros Hv. unfold replace.
  rewrite (proj2 (valid_timeb_iff (hh, mm)) Hv).
  eexists; repeat split.
Qed.

Lemma replace_none (c : datetime) (hh mm : Z) :
  ~ valid_time (hh, mm) -> replace c hh mm = None.
Proof.
  intros Hv. unfold replace.
  destruct (valid_timeb (hh, mm)) eqn:E; [|reflexivity].
  apply valid_timeb_iff in E. contradiction.
Qed.

(** The next occurrence exists for a valid wall-clock time, is strictly
    after [current] and at most one day after it. *)
Lemma next_datetime_with_time_bounds (current : datetime) (time : wall_clock) :
  valid_time time ->
  exists r, next_datetime_with_time current time = Some r
            /\ utc current < utc r <= utc current + US_PER_DAY
            /\ utcoffset r = utcoffset current.
Proof.
  destruct time as [hh mm]. intros Hv.
  destruct (replace_some current hh mm Hv) as (r & Hr & Hoff & Hloc).
  unfold next_datetime_with_time. rewrite Hr.
  pose proof (hour_range current) as Hh.
  pose proof (minute_range current) as Hm.
  destruct Hv as [Hv1 Hv2]; simpl in Hv1, Hv2.
  unfold dt_leb.
  destruct (Z.leb_spec (utc r) (utc current)) as [Hle | Hgt];
    eexists; (split; [reflexivity|]);
    rewrite ?utc_dt_add; unfold utc in *; simpl;
    unfold timedelta_days, US_PER_DAY, US_PER_HOUR, US_PER_MINUTE in *;
    lia.
Qed.

(** The result carries the requested hour and minute, and the second and
    microsecond of [current]. *)
Lemma next_datetime_with_time_fields (current : datetime)
      (time : wall_clock) (r : datetime) :
  next_datetime_with_time current time = Some r ->
  hour r = fst time /\ minute r = snd time
  /\ second r = second current /\ microsecond r = microsecond current.
Proof.
  destruct time as [hh mm]. unfold next_datetime_with_time, replace.
  destruct (valid_timeb (hh, mm)) eqn:E; [|discriminate].
  apply valid_timeb_iff in E. destruct E as [Hh Hm]. simpl in Hh, Hm.
  assert (Hdiv : forall x, x / 3600000000 = x / 60000000 / 60)
    by (intros x; rewrite Z.div_div by lia; reflexivity).
  destruct (dt_leb _ current); intros H; injection H as <-;
    unfold hour, minute, second, microsecond, dt_add, timedelta_days,
      US_PER_DAY, US_PER_HOUR, US_PER_MINUTE; simpl;
    rewrite !Hdiv; repeat split; Z.div_mod_to_equations; lia.
Qed.

(** The calendar fields of a constructed datetime read back, and the local
    fields, not the UTC ones, are what [replace] sets. *)
Example plug_in_example_fields :
  (toordinal plug_in_example, hour plug_in_example, minute plug_in_example,
   second plug_in_example, microsecond plug_in_example)
  = (737336, 18, 42, 12, 0).
Proof. vm_compute. reflexivity. Qed.

Example next_datetime_with_time_offset :
  next_datetime_with_time
    (datetime_of 2019 10 4 20 42 0 0 (timedelta_minutes 120)) (7, 0)
  = Some (datetime_of 2019 10 5 7 0 0 0 (timedelta_minutes 120))
  /\ utc (datetime_of 2019 10 5 7 0 0 0 (timedelta_minutes 120))
     = utc (datetime_of 2019 10 5 5 0 0 0 0).
Proof. vm_compute. split; reflexivity. Qed.

(** A failed parse of the wall-clock time is the only way to fail. *)
Lemma next_datetime_with_time_none (current : datetime) (time : wall_clock) :
  ~ valid_time time -> next_datetime_with_time current time = None.
Proof.
  destruct time as [hh mm]. intros Hv.
  unfold next_datetime_with_time. now rewrite replace_none.
Qed.

End DatetimeFacts.

(* ================================================================= *)
(** ** Sums of durations *)

Section DurationFacts.

Lemma fold_left_add_from (l : list Z) (a : Z) :
  fold_left Z.add l a = a + fold_left Z.add l 0.
Proof.
  revert a. induction l as [|x l IH]; intros a; simpl.
  - lia.
  - rewrite (IH (a + x)), (IH x). lia.
Qed.

Lemma total_duration_nil : total_duration [] = 0.
Proof. reflexivity. Qed.

Lemma total_duration_cons (p : period) (l : list period) :
  total_duration (p :: l) = duration p + total_duration l.
Proof.
  unfold total_duration. simpl. now rewrite fold_left_add_from.
Qed.

Lemma total_duration_app (l1 l2 : list period) :
  total_duration (l1 ++ l2) = total_duration l1 + total_duration l2.
Proof.
  induction l1 as [|p l1 IH]; cbn [app].
  - change (total_duration []) with 0. lia.
  - rewrite !total_duration_cons, IH. lia.
Qed.

Lemma total_duration_perm (l1 l2 : list period) :
  Permutation l1 l2 -> total_duration l1 = total_duration l2.
Proof.
  induction 1; rewrite ?total_duration_cons in *; lia.
Qed.

Lemma duration_pair (a b : datetime) : duration (a, b) = utc b - utc a.
Proof. reflexivity. Qed.

End DurationFacts.

(* ================================================================= *)
(** ** The stable sort *)

Section SortedFacts.
Context {A : Type} (key : A -> Z).

Lemma insert_by_perm (x : A) (l : list A) :
  Permutation (insert_by key x l) (x :: l).
Proof.
  induction l as [|y l IH]; simpl.
  - apply Permutation_refl.
  - destruct (key x <=? key y).
    + apply Permutation_refl.
    + eapply perm_trans; [apply perm_skip, IH | apply perm_swap].
Qed.

Lemma sorted_perm (l : list A) : Permutation (sorted key l) l.
Proof.
  induction l as [|x l IH]; simpl.
  - constructor.
  - eapply perm_trans; [apply insert_by_perm | now apply perm_skip].
Qed.

Lemma insert_by_sorted (x : A) (l : list A) :
  StronglySorted (key_le key) l -> StronglySorted (key_le key) (insert_by key x l).
Proof.
  induction 1 as [|y l Hs IH Hall]; simpl.
  - repeat constructor.
  - destruct (Z.leb_spec (key x) (key y)) as [Hle | Hgt].
    + constructor; [now constructor|].
      constructor; [exact Hle|].
      eapply Forall_impl; [|exact Hall].
      intros z Hz. unfold key_le in *. lia.
    + constructor; [exact IH|].
      eapply Permutation_Forall;
        [apply Permutation_sym, insert_by_perm|].
      constructor; [unfold key_le; lia | exact Hall].
Qed.

Lemma sorted_sorted (l : list A) : StronglySorted (key_le key) (sorted key l).
Proof.
  induction l as [|x l IH]; simpl.
  - constructor.
  - now apply insert_by_sorted.
Qed.

(** Stability: the elements of one key keep their relative order. *)
Lemma insert_by_filter (k : Z) (x : A) (l : list A) :
  filter (fun a => key a =? k) (insert_by key x l)
  = filter (fun a => key a =? k) (x :: l).
Proof.
  induction l as [|y l IH]; simpl in *.
  - reflexivity.
  - destruct (Z.leb_spec (key x) (key y)) as [Hle | Hgt]; simpl.
    + reflexivity.
    + rewrite IH.
      destruct (Z.eqb_spec (key x) k), (Z.eqb_spec (key y) k);
        try reflexivity; lia.
Qed.

Lemma sorted_stable (k : Z) (l : list A) :
  filter (fun a => key a =? k) (sorted key l)
  = filter (fun a => key a =? k) l.
Proof.
  induction l as [|x l IH]; simpl.
  - reflexivity.
  - rewrite insert_by_filter. simpl. now rewrite IH.
Qed.

Lemma sorted_length (l : list A) : length (sorted key l) = length l.
Proof. apply Permutation_length, sorted_perm. Qed.

Lemma sorted_in (x : A) (l : list A) : In x (sorted key l) <-> In x l.
Proof.
  split; apply Permutation_in;
    [apply sorted_perm | apply Permutation_sym, sorted_perm].
Qed.

End SortedFacts.

(* ================================================================= *)
(** ** The comprehension of [optimize_co2] *)

Section ClipFacts.

Lemma in_clip (co2 : co2_measure) (p : period) (fc : co2_forecast) :
  In fc (clip co2 p) ->
  fc = mk_co2_forecast
         (dt_max (dt_add (co2_from co2) shift_to_forecast) (fst p))
         (dt_min (dt_add (co2_to co2) shift_to_forecast) (snd p))
         (intensity co2)
  /\ utc (co2_from co2) + shift_to_forecast <= utc (snd p)
  /\ utc (fst p) <= utc (co2_to co2) + shift_to_forecast.
Proof.
  destruct p as [pf pt]. unfold clip, dt_leb. simpl.
  rewrite !utc_dt_add.
  destruct (Z.leb_spec (utc (co2_from co2) + shift_to_forecast) (utc pt));
    destruct (Z.leb_spec (utc pf) (utc (co2_to co2) + shift_to_forecast));
    simpl; intros Hin; try contradiction.
  destruct Hin as [<- | []]. auto.
Qed.

Lemma in_co2_forecasts (periods : list period) (ms : list co2_measure)
      (fc : co2_forecast) :
  In fc (co2_forecasts periods ms) <->
  exists co2 p, In co2 ms /\ In p periods /\ In fc (clip co2 p).
Proof.
  unfold co2_forecasts. rewrite in_flat_map. split.
  - intros (co2 & Hco2 & Hin). apply in_flat_map in Hin.
    destruct Hin as (p & Hp & Hfc). eauto.
  - intros (co2 & p & Hco2 & Hp & Hfc). exists co2. split; [assumption|].
    apply in_flat_map. eauto.
Qed.

(** A clipped entry lies within the period it was clipped to. *)
Lemma co2_forecasts_within (periods : list period) (ms : list co2_measure)
      (fc : co2_forecast) :
  In fc (co2_forecasts periods ms) ->
  exists p, In p periods /\ within (co2_period fc) p.
Proof.
  intros H. apply in_co2_forecasts in H.
  destruct H as (co2 & p & _ & Hp & Hfc).
  apply in_clip in Hfc. destruct Hfc as (-> & _ & _).
  exists p. split; [assumption|].
  unfold within, co2_period. simpl.
  rewrite utc_dt_max, utc_dt_min. lia.
Qed.

(** On well-formed periods and records no clipped entry has a negative
    duration. *)
Lemma co2_forecasts_nonneg (periods : list period) (ms : list co2_measure) :
  Forall wf_period periods -> Forall wf_measure ms ->
  Forall (fun fc => 0 <= duration (co2_period fc))
         (co2_forecasts periods ms).
Proof.
  intros Hp Hm. apply Forall_forall. intros fc Hfc.
  apply in_co2_forecasts in Hfc.
  destruct Hfc as (co2 & p & Hco2 & Hin & Hfc).
  apply in_clip in Hfc. destruct Hfc as (-> & H1 & H2).
  rewrite Forall_forall in Hp, Hm.
  specialize (Hp p Hin). specialize (Hm co2 Hco2).
  unfold wf_period, wf_measure in *.
  unfold co2_period, duration, dt_sub. cbn [fc_from fc_to].
  rewrite utc_dt_max, utc_dt_min, !utc_dt_add. lia.
Qed.

End ClipFacts.

(* ================================================================= *)
(** ** The greedy loop of [optimize_co2] *)

Section LoopFacts.

Lemma charge_loop_cons (r : timedelta) (fc : co2_forecast)
      (fcs : list co2_forecast) :
  charge_loop r (fc :: fcs)
  = if r <=? 0 then []
    else (if duration (co2_period fc) <? r then co2_period fc
          else (fc_from fc, dt_add (fc_from fc) r))
         :: charge_loop (r - duration (co2_period fc)) fcs.
Proof. reflexivity. Qed.

Lemma charge_loop_nonpos (r : timedelta) (fcs : list co2_forecast) :
  r <= 0 -> charge_loop r fcs = [].
Proof.
  intros Hr. destruct fcs as [|fc fcs]; [reflexivity|].
  rewrite charge_loop_cons.
  destruct (Z.leb_spec r 0); [reflexivity | lia].
Qed.

Lemma charge_loop_whole (r : timedelta) (fc : co2_forecast)
      (fcs : list co2_forecast) :
  0 < r -> duration (co2_period fc) < r ->
  charge_loop r (fc :: fcs)
  = co2_period fc :: charge_loop (r - duration (co2_period fc)) fcs.
Proof.
  intros Hr Hd. rewrite charge_loop_cons.
  destruct (Z.leb_spec r 0); [lia|].
  destruct (Z.ltb_spec (duration (co2_period fc)) r); [reflexivity | lia].
Qed.

Lemma charge_loop_prefix (r : timedelta) (fc : co2_forecast)
      (fcs : list co2_forecast) :
  0 < r -> r <= duration (co2_period fc) ->
  charge_loop r (fc :: fcs) = [(fc_from fc, dt_add (fc_from fc) r)].
Proof.
  intros Hr Hd. rewrite charge_loop_cons.
  destruct (Z.leb_spec r 0); [lia|].
  destruct (Z.ltb_spec (duration (co2_period fc)) r); [lia|].
  now rewrite charge_loop_nonpos by lia.
Qed.

Lemma duration_prefix (a : datetime) (r : timedelta) :
  duration (a, dt_add a r) = r.
Proof. rewrite duration_pair, utc_dt_add. lia. Qed.

Lemma forecast_total_cons (fc : co2_forecast) (fcs : list co2_forecast) :
  forecast_total (fc :: fcs)
  = duration (co2_period fc) + forecast_total fcs.
Proof. unfold forecast_total. simpl. apply total_duration_cons. Qed.

(** The loop meets the requirement, or uses up every entry and falls
    short. *)
Lemma charge_loop_total (r : timedelta) (fcs : list co2_forecast) :
  0 <= r ->
  total_duration (charge_loop r fcs) = r
  \/ (total_duration (charge_loop r fcs) = forecast_total fcs
      /\ forecast_total fcs < r).
Proof.
  revert r. induction fcs as [|fc fcs IH]; intros r Hr.
  - simpl. change (forecast_total []) with 0.
    change (total_duration []) with 0. lia.
  - destruct (Z.eq_dec r 0) as [-> | Hnz].
    { rewrite charge_loop_nonpos by lia. now left. }
    destruct (Z.lt_ge_cases (duration (co2_period fc)) r) as [Hd | Hd].
    + rewrite charge_loop_whole by lia.
      rewrite total_duration_cons, forecast_total_cons.
      destruct (IH (r - duration (co2_period fc))) as [H | [H1 H2]];
        [lia | left; lia | right; lia].
    + rewrite charge_loop_prefix by lia.
      rewrite total_duration_cons, duration_prefix.
      change (total_duration []) with 0. left. lia.
Qed.

Lemma forecast_total_nonneg (fcs : list co2_forecast) :
  Forall (fun fc => 0 <= duration (co2_period fc)) fcs ->
  0 <= forecast_total fcs.
Proof.
  induction 1 as [|fc fcs Hfc _ IH].
  - change (forecast_total []) with 0. lia.
  - rewrite forecast_total_cons. lia.
Qed.

(** With no negative entry the loop totals the minimum of the requirement
    and of what the entries offer. *)
Lemma charge_loop_total_min (r : timedelta) (fcs : list co2_forecast) :
  0 <= r ->
  Forall (fun fc => 0 <= duration (co2_period fc)) fcs ->
  total_duration (charge_loop r fcs) = Z.min r (forecast_total fcs).
Proof.
  intros Hr Hall. revert r Hr.
  induction Hall as [|fc fcs Hfc Hall IH]; intros r Hr.
  - simpl. change (forecast_total []) with 0.
    change (total_duration []) with 0. lia.
  - rewrite forecast_total_cons.
    pose proof (forecast_total_nonneg fcs Hall) as Hrest.
    destruct (Z.eq_dec r 0) as [-> | Hnz].
    { rewrite charge_loop_nonpos by lia.
      change (total_duration []) with 0. lia. }
    destruct (Z.lt_ge_cases (duration (co2_period fc)) r) as [Hd | Hd].
    + rewrite charge_loop_whole by lia.
      rewrite total_duration_cons, IH by lia. lia.
    + rewrite charge_loop_prefix by lia.
      rewrite total_duration_cons, duration_prefix.
      change (total_duration []) with 0. lia.
Qed.

(** Each appended period starts where an entry starts and ends no later
    than the entry. *)
Lemma charge_loop_in (r : timedelta) (fcs : list co2_forecast) (q : period) :
  In q (charge_loop r fcs) ->
  exists fc, In fc fcs /\ fst q = fc_from fc
             /\ utc (snd q) <= utc (fc_to fc).
Proof.
  revert r. induction fcs as [|fc fcs IH]; intros r Hq.
  - destruct Hq.
  - destruct (Z.le_gt_cases r 0) as [Hr | Hr].
    { rewrite charge_loop_nonpos in Hq by lia. destruct Hq. }
    destruct (Z.lt_ge_cases (duration (co2_period fc)) r) as [Hd | Hd].
    + rewrite charge_loop_whole in Hq by lia.
      destruct Hq as [<- | Hq].
      * exists fc. simpl. repeat split; auto. lia.
      * destruct (IH _ Hq) as (fc' & Hin & H1 & H2).
        exists fc'. simpl. auto.
    + rewrite charge_loop_prefix in Hq by lia.
      destruct Hq as [<- | []].
      exists fc. simpl. repeat split; auto.
      rewrite utc_dt_add. unfold co2_period in Hd.
      rewrite duration_pair in Hd. lia.
Qed.

End LoopFacts.

Section GreedyFacts.

Lemma charge_loop_greedy (r : timedelta) (fcs : list co2_forecast) :
  greedy_consume r fcs (charge_loop r fcs).
Proof.
  revert r. induction fcs as [|fc fcs IH]; intros r.
  - destruct (Z.le_gt_cases r 0); simpl; now constructor.
  - destruct (Z.le_gt_cases r 0) as [Hr | Hr].
    { rewrite charge_loop_nonpos by lia. now constructor. }
    destruct (Z.lt_ge_cases (duration (co2_period fc)) r) as [Hd | Hd].
    + rewrite charge_loop_whole by lia. constructor; auto.
    + rewrite charge_loop_prefix by lia. constructor; lia.
Qed.

(** The relation is functional: the specification's wording determines
    the output. *)
Lemma greedy_consume_fun (r : timedelta) (fcs : list co2_forecast)
      (out : list period) :
  greedy_consume r fcs out -> out = charge_loop r fcs.
Proof.
  induction 1.
  - now rewrite charge_loop_nonpos.
  - reflexivity.
  - rewrite charge_loop_whole by lia. now f_equal.
  - now rewrite charge_loop_prefix by lia.
Qed.

(** Every appended period but the last is a whole entry, at the position
    of that entry. *)
Lemma charge_loop_before_last (r : timedelta) (fcs : list co2_forecast)
      (i : nat) (fc : co2_forecast) :
  (S i < length (charge_loop r fcs))%nat ->
  nth_error fcs i = Some fc ->
  nth_error (charge_loop r fcs) i = Some (co2_period fc)
  /\ duration (co2_period fc)
     < r - forecast_total (firstn i fcs).
Proof.
  revert r i. induction fcs as [|x fcs IH]; intros r i Hlen Hnth.
  - destruct i; discriminate.
  - destruct (Z.le_gt_cases r 0) as [Hr | Hr].
    { rewrite charge_loop_nonpos in Hlen by lia. simpl in Hlen. lia. }
    destruct (Z.lt_ge_cases (duration (co2_period x)) r) as [Hd | Hd].
    + rewrite charge_loop_whole in * by lia.
      destruct i as [|i].
      * injection Hnth as <-. cbn [nth_error firstn].
        change (forecast_total []) with 0. split; [reflexivity | lia].
      * cbn [nth_error firstn length] in *.
        rewrite forecast_total_cons.
        destruct (IH (r - duration (co2_period x)) i) as [H1 H2];
          [lia | assumption |].
        split; [assumption | lia].
    + rewrite charge_loop_prefix in Hlen by lia. simpl in Hlen. lia.
Qed.

Lemma StronglySorted_nth {A : Type} (R : A -> A -> Prop) (l : list A)
      (i j : nat) (a b : A) :
  StronglySorted R l -> (i < j)%nat ->
  nth_error l i = Some a -> nth_error l j = Some b -> R a b.
Proof.
  intros Hs. revert i j. induction Hs as [|x l Hs IH Hall]; intros i j Hij Hi Hj.
  - destruct i; discriminate.
  - destruct j as [|j]; [lia|]. simpl in Hj.
    destruct i as [|i]; simpl in Hi.
    + injection Hi as <-. rewrite Forall_forall in Hall.
      apply Hall. eapply nth_error_In; eassumption.
    + apply (IH i j); [lia | assumption | assumption].
Qed.

End GreedyFacts.

(* ================================================================= *)
(** ** [optimize_co2] *)

Section OptimizeFacts.

Lemma optimize_co2_passthrough (periods : list period) (r : timedelta)
      (ms : list co2_measure) :
  total_duration periods <= r -> optimize_co2 periods r ms = periods.
Proof.
  intros H. unfold optimize_co2.
  destruct (Z.leb_spec (total_duration periods) r); [reflexivity | lia].
Qed.

Lemma optimize_co2_greedy (periods : list period) (r : timedelta)
      (ms : list co2_measure) :
  r < total_duration periods ->
  optimize_co2 periods r ms
  = simplify_periods
      (charge_loop r (sorted_co2_forecasts periods ms)).
Proof.
  intros H. unfold optimize_co2.
  destruct (Z.leb_spec (total_duration periods) r); [lia | reflexivity].
Qed.

Lemma total_duration_simplify (l : list period) :
  total_duration (simplify_periods l) = total_duration l.
Proof. apply total_duration_perm, sorted_perm. Qed.

Lemma forecast_total_sorted (periods : list period) (ms : list co2_measure) :
  forecast_total (sorted_co2_forecasts periods ms)
  = forecast_total (co2_forecasts periods ms).
Proof.
  unfold forecast_total, sorted_co2_forecasts.
  apply total_duration_perm, Permutation_map, sorted_perm.
Qed.

Lemma optimize_co2_in_within (periods : list period) (r : timedelta)
      (ms : list co2_measure) (q : period) :
  In q (optimize_co2 periods r ms) ->
  exists p, In p periods /\ within q p.
Proof.
  intros Hq.
  destruct (Z.le_gt_cases (total_duration periods) r) as [Hle | Hgt].
  - rewrite optimize_co2_passthrough in Hq by assumption.
    exists q. split; [assumption | unfold within; lia].
  - rewrite optimize_co2_greedy in Hq by assumption.
    apply sorted_in in Hq. apply charge_loop_in in Hq.
    destruct Hq as (fc & Hfc & Hfrom & Hto).
    apply sorted_in in Hfc. apply co2_forecasts_within in Hfc.
    destruct Hfc as (p & Hp & Hw1 & Hw2). exists p. split; [assumption|].
    unfold within, co2_period in *. simpl in *. rewrite Hfrom. lia.
Qed.

Lemma optimize_co2_total_le (periods : list period) (r : timedelta)
      (ms : list co2_measure) :
  0 <= r -> total_duration (optimize_co2 periods r ms) <= r.
Proof.
  intros Hr.
  destruct (Z.le_gt_cases (total_duration periods) r) as [Hle | Hgt].
  - now rewrite optimize_co2_passthrough.
  - rewrite optimize_co2_greedy, total_duration_simplify by assumption.
    destruct (charge_loop_total r (sorted_co2_forecasts periods ms) Hr); lia.
Qed.

Lemma optimize_co2_total_covered (periods : list period) (r : timedelta)
      (ms : list co2_measure) :
  0 <= r -> r < total_duration periods ->
  r <= forecast_total (co2_forecasts periods ms) ->
  total_duration (optimize_co2 periods r ms) = r.
Proof.
  intros Hr Hgt Hcov.
  rewrite optimize_co2_greedy, total_duration_simplify by assumption.
  destruct (charge_loop_total r (sorted_co2_forecasts periods ms) Hr)
    as [H | [_ H]]; [assumption|].
  rewrite forecast_total_sorted in H. lia.
Qed.

(** On well-formed periods and records the entries the comprehension
    keeps total exactly the intersections: a record that meets a period is
    kept with the length of what they share, one that does not is dropped. *)
Lemma clip_total_overlap (co2 : co2_measure) (periods : list period) :
  wf_measure co2 -> Forall wf_period periods ->
  forecast_total (flat_map (clip co2) periods)
  = fold_right Z.add 0 (map (overlap co2) periods).
Proof.
  intros Hm Hp. unfold wf_measure in Hm.
  induction Hp as [|[pf pt] periods Hwf _ IH]; [reflexivity|].
  cbn [flat_map map fold_right]. unfold forecast_total in *.
  rewrite map_app, total_duration_app, IH. f_equal.
  unfold wf_period in Hwf. simpl in Hwf.
  unfold clip, overlap, dt_leb. rewrite !utc_dt_add.
  unfold shift_to_forecast, timedelta_weeks, US_PER_DAY. cbn [fst snd].
  destruct (Z.leb_spec (utc (co2_from co2) + 1 * (7 * 86400000000)) (utc pt));
    destruct (Z.leb_spec (utc pf) (utc (co2_to co2) + 1 * (7 * 86400000000)));
    cbn [andb map]; rewrite ?total_duration_cons;
    change (total_duration []) with 0;
    unfold co2_period; cbn [fc_from fc_to];
    rewrite ?duration_pair, ?utc_dt_max, ?utc_dt_min, ?utc_dt_add; lia.
Qed.

Lemma forecast_total_overlap (periods : list period) (ms : list co2_measure) :
  Forall wf_period periods -> Forall wf_measure ms ->
  forecast_total (co2_forecasts periods ms) = overlap_total periods ms.
Proof.
  intros Hp Hm. unfold overlap_total, co2_forecasts.
  induction Hm as [|co2 ms Hco2 _ IH]; [reflexivity|].
  cbn [flat_map map fold_right]. unfold forecast_total in *.
  rewrite map_app, total_duration_app, IH. f_equal.
  now apply clip_total_overlap.
Qed.

End OptimizeFacts.

(* ================================================================= *)
(** ** [off_peak_and_peak_periods] *)

Section PartitionFacts.

Lemma next_datetime_with_time_inv (current : datetime) (time : wall_clock)
      (r : datetime) :
  next_datetime_with_time current time = Some r ->
  valid_time time
  /\ utc current < utc r <= utc current + US_PER_DAY
  /\ utcoffset r = utcoffset current.
Proof.
  intros H. destruct (valid_timeb time) eqn:E.
  - apply valid_timeb_iff in E. split; [assumption|].
    destruct (next_datetime_with_time_bounds current time E)
      as (r' & Hr' & Hb). congruence.
  - rewrite next_datetime_with_time_none in H; [discriminate|].
    intros Hv. apply valid_timeb_iff in Hv. congruence.
Qed.

Lemma off_peak_and_peak_periods_shape (plug_in ready_by : datetime)
      (os oe : wall_clock) (off peak : list period) :
  off_peak_and_peak_periods plug_in ready_by os oe = Some (off, peak) ->
  exists s e,
    next_datetime_with_time plug_in os = Some s
    /\ next_datetime_with_time plug_in oe = Some e
    /\ partition_shape plug_in ready_by s e off peak.
Proof.
  unfold off_peak_and_peak_periods.
  destruct (next_datetime_with_time plug_in os) as [s|]; [|discriminate].
  destruct (next_datetime_with_time plug_in oe) as [e|]; [|discriminate].
  intros H. exists s, e. split; [reflexivity|]. split; [reflexivity|].
  unfold dt_eqb, dt_ltb in H.
  destruct (Z.eqb_spec (utc s) (utc e)).
  { injection H as <- <-. now constructor. }
  destruct (Z.ltb_spec (utc s) (utc e));
    destruct (Z.ltb_spec (utc s) (utc ready_by));
    destruct (Z.ltb_spec (utc e) (utc ready_by));
    injection H as <- <-; constructor; lia.
Qed.

Lemma off_peak_and_peak_periods_some (plug_in ready_by : datetime)
      (os oe : wall_clock) :
  valid_time os -> valid_time oe ->
  exists off peak,
    off_peak_and_peak_periods plug_in ready_by os oe = Some (off, peak).
Proof.
  intros Hs He.
  destruct (next_datetime_with_time_bounds plug_in os Hs) as (s & Es & _).
  destruct (next_datetime_with_time_bounds plug_in oe He) as (e & Ee & _).
  unfold off_peak_and_peak_periods. rewrite Es, Ee.
  eexists (fst _), (snd _). now rewrite <- surjective_pairing.
Qed.

(** Outside the last leaf the two lists partition the window. *)
Lemma partition_shape_partitions (plug_in ready_by s e : datetime)
      (off peak : list period) :
  partition_shape plug_in ready_by s e off peak ->
  utc plug_in < utc ready_by -> utc plug_in < utc s -> utc plug_in < utc e ->
  ~ (utc e < utc s /\ utc ready_by <= utc e) ->
  partitions plug_in ready_by off peak.
Proof.
  intros Hshape Hrb Hs He Hspan.
  destruct Hshape; try lia; (split; [intros t; split|]).
  all: try (intros (p & Hin & Hc); simpl in Hin;
            repeat (destruct Hin as [<- | Hin]); try contradiction;
            unfold covers in *; simpl in *; lia).
  all: try (simpl; repeat constructor; intros t [Hcp Hcq];
            unfold covers in *; simpl in *; lia).
  all: intros Ht;
    destruct (Z.lt_ge_cases t (utc s)); destruct (Z.lt_ge_cases t (utc e));
    first
      [ eexists; split; [left; reflexivity | unfold covers; simpl; lia]
      | eexists; split;
        [right; left; reflexivity | unfold covers; simpl; lia]
      | eexists; split;
        [right; right; left; reflexivity | unfold covers; simpl; lia] ].
Qed.

(** Every leaf yields periods inside the window, each with its start
    strictly before its end. *)
Lemma partition_shape_proper (plug_in ready_by s e : datetime)
      (off peak : list period) :
  partition_shape plug_in ready_by s e off peak ->
  utc plug_in < utc ready_by -> utc plug_in < utc s -> utc plug_in < utc e ->
  Forall (fun q => proper q /\ within q (plug_in, ready_by)) (off ++ peak).
Proof.
  intros Hshape Hrb Hs He.
  destruct Hshape; simpl; repeat constructor;
    unfold proper, within; simpl; lia.
Qed.

(** Outside the last leaf the durations add up to the window and the
    off-peak periods are strictly shorter than it. *)
Lemma partition_shape_totals (plug_in ready_by s e : datetime)
      (off peak : list period) :
  partition_shape plug_in ready_by s e off peak ->
  utc plug_in < utc ready_by -> utc plug_in < utc s -> utc plug_in < utc e ->
  (off = [(plug_in, ready_by)] /\ peak = [(plug_in, ready_by)])
  \/ (total_duration off + total_duration peak
      = utc ready_by - utc plug_in
      /\ total_duration off < utc ready_by - utc plug_in).
Proof.
  intros Hshape Hrb Hs He.
  destruct Hshape; [right | right | right | right | right | right | left];
    try (split; reflexivity);
    repeat rewrite total_duration_cons;
    change (total_duration []) with 0; rewrite ?duration_pair; lia.
Qed.

End PartitionFacts.

(* ================================================================= *)
(** ** [schedule] *)

Section ScheduleFacts.

Lemma schedule_short (rb : wall_clock) (ct : Z) (plug : datetime)
      (os oe : wall_clock) (ms : list co2_measure) (d : datetime) :
  next_datetime_with_time plug rb = Some d ->
  dt_sub d plug <= timedelta_minutes ct ->
  schedule rb ct plug os oe ms = Some [(plug, d)].
Proof.
  intros Hd Hle. unfold schedule. rewrite Hd.
  destruct (Z.leb_spec (dt_sub d plug) (timedelta_minutes ct));
    [reflexivity | lia].
Qed.

Lemma schedule_long (rb : wall_clock) (ct : Z) (plug : datetime)
      (os oe : wall_clock) (ms : list co2_measure) (d : datetime)
      (off peak : list period) :
  next_datetime_with_time plug rb = Some d ->
  timedelta_minutes ct < dt_sub d plug ->
  off_peak_and_peak_periods plug d os oe = Some (off, peak) ->
  schedule rb ct plug os oe ms
  = Some (simplify_periods
            (charging_periods off peak (timedelta_minutes ct) ms)).
Proof.
  intros Hd Hgt Hp. unfold schedule. rewrite Hd.
  destruct (Z.leb_spec (dt_sub d plug) (timedelta_minutes ct)); [lia|].
  now rewrite Hp.
Qed.

(** The shape of the partition [schedule] computes, with the facts on the
    next occurrences it rests on. *)
Lemma schedule_partition (plug d : datetime) (rb os oe : wall_clock)
      (off peak : list period) :
  next_datetime_with_time plug rb = Some d ->
  off_peak_and_peak_periods plug d os oe = Some (off, peak) ->
  exists s e,
    partition_shape plug d s e off peak
    /\ utc plug < utc d /\ utc plug < utc s /\ utc plug < utc e.
Proof.
  intros Hd Hp.
  apply next_datetime_with_time_inv in Hd. destruct Hd as (_ & Hd & _).
  apply off_peak_and_peak_periods_shape in Hp.
  destruct Hp as (s & e & Hs & He & Hshape).
  apply next_datetime_with_time_inv in Hs. destruct Hs as (_ & Hs & _).
  apply next_datetime_with_time_inv in He. destruct He as (_ & He & _).
  exists s, e. repeat split; try assumption; lia.
Qed.

Lemma charging_periods_total_le (off peak : list period) (r : timedelta)
      (ms : list co2_measure) :
  0 <= r -> total_duration (charging_periods off peak r ms) <= r.
Proof.
  intros Hr. unfold charging_periods.
  destruct (Z.leb_spec r (total_duration off)).
  - now apply optimize_co2_total_le.
  - rewrite total_duration_app.
    pose proof (optimize_co2_total_le peak (r - total_duration off) ms).
    lia.
Qed.

Lemma charging_periods_total_covered (off peak : list period)
      (r : timedelta) (ms : list co2_measure) :
  0 <= r -> r < total_duration off + total_duration peak ->
  allocation_covered off peak r ms ->
  total_duration (charging_periods off peak r ms) = r.
Proof.
  intros Hr Hwin [Hoff Hpeak]. unfold charging_periods.
  destruct (Z.leb_spec r (total_duration off)) as [Hle | Hgt].
  - destruct (Hoff Hle) as [Heq | Hcov].
    + rewrite optimize_co2_passthrough by lia. assumption.
    + destruct (Z.eq_dec (total_duration off) r) as [Heq | Hne].
      * rewrite optimize_co2_passthrough by lia. assumption.
      * apply optimize_co2_total_covered; [assumption | lia | assumption].
  - rewrite total_duration_app.
    rewrite optimize_co2_total_covered; [lia | lia | lia | auto].
Qed.

Lemma charging_periods_within (off peak : list period) (r : timedelta)
      (ms : list co2_measure) (q : period) :
  In q (charging_periods off peak r ms) ->
  exists p, In p (off ++ peak) /\ within q p.
Proof.
  unfold charging_periods.
  destruct (Z.leb_spec r (total_duration off)); intros Hq.
  - apply optimize_co2_in_within in Hq. destruct Hq as (p & Hp & Hw).
    exists p. split; [apply in_or_app; now left | assumption].
  - apply in_app_or in Hq. destruct Hq as [Hq | Hq].
    + exists q. split; [apply in_or_app; now left | unfold within; lia].
    + apply optimize_co2_in_within in Hq. destruct Hq as (p & Hp & Hw).
      exists p. split; [apply in_or_app; now right | assumption].
Qed.

Lemma within_trans (q p w : period) : within q p -> within p w -> within q w.
Proof. unfold within. lia. Qed.

Lemma within_disjoint (q p pk : period) :
  within q p -> disjoint p pk -> disjoint q pk.
Proof.
  unfold within, disjoint, covers. intros Hw Hd t [Hq Hpk].
  apply (Hd t). lia.
Qed.

Lemma ForallOrdPairs_app_cross {A : Type} (R : A -> A -> Prop)
      (l1 l2 : list A) (a b : A) :
  ForallOrdPairs R (l1 ++ l2) -> In a l1 -> In b l2 -> R a b.
Proof.
  induction l1 as [|x l1 IH]; simpl; intros Hp Ha Hb; [contradiction|].
  inversion Hp as [|y l Hall Hrest]; subst.
  destruct Ha as [-> | Ha].
  - rewrite Forall_forall in Hall. apply Hall, in_or_app. now right.
  - now apply IH.
Qed.

(** The periods of [schedule] lie within the window, whichever branch is
    taken after the partition. *)
Lemma charging_periods_in_window (plug d : datetime) (rb os oe : wall_clock)
      (off peak : list period) (r : timedelta) (ms : list co2_measure)
      (q : period) :
  next_datetime_with_time plug rb = Some d ->
  off_peak_and_peak_periods plug d os oe = Some (off, peak) ->
  In q (charging_periods off peak r ms) ->
  within q (plug, d).
Proof.
  intros Hd Hp Hq.
  destruct (schedule_partition plug d rb os oe off peak Hd Hp)
    as (s & e & Hshape & H1 & H2 & H3).
  apply charging_periods_within in Hq. destruct Hq as (p & Hin & Hw).
  pose proof (partition_shape_proper _ _ _ _ _ _ Hshape H1 H2 H3) as Hall.
  rewrite Forall_forall in Hall. destruct (Hall p Hin) as [_ Hpw].
  eapply within_trans; eassumption.
Qed.

End ScheduleFacts.

(* ================================================================= *)
(** ** The claims *)

(** C1, as stated, fails: with the script's own arguments and an empty
    forecast series the window (738 min) is longer than the charge time
    (300 min), yet the schedule is empty, so its total duration is not the
    charge time. *)
Lemma schedule_total_duration_counterexample :
  ~ (forall d sched,
        next_datetime_with_time plug_in_example (7, 0) = Some d ->
        schedule (7, 0) 300 plug_in_example (0, 30) (7, 30) [] = Some sched ->
        if dt_sub d plug_in_example <=? timedelta_minutes 300
        then sched = [(plug_in_example, d)]
        else total_duration sched = timedelta_minutes 300).
Proof.
  intros H.
  specialize (H (datetime_of 2019 10 5 7 0 12 0 0) []).
  assert (E1 : next_datetime_with_time plug_in_example (7, 0)
               = Some (datetime_of 2019 10 5 7 0 12 0 0))
    by (vm_compute; reflexivity).
  assert (E2 : schedule (7, 0) 300 plug_in_example (0, 30) (7, 30) []
               = Some []) by (vm_compute; reflexivity).
  specialize (H E1 E2). vm_compute in H. discriminate.
Qed.

(** C1 (amended): if [deadline - plugIn <= chargeDuration] the schedule is
    exactly the single interval [[plugIn, deadline)], the boundary of
    equality included; otherwise, for a non-negative charge duration and a
    valid off-peak window, a schedule is returned whose total duration is at
    most the charge duration, and equals it whenever the clipped forecast
    entries of the periods handed to the allocator cover what is asked of
    it. *)
Theorem schedule_total_duration (rb : wall_clock) (ct : Z) (plug : datetime)
        (os oe : wall_clock) (ms : list co2_measure) (d : datetime) :
  next_datetime_with_time plug rb = Some d ->
  (dt_sub d plug <= timedelta_minutes ct ->
   schedule rb ct plug os oe ms = Some [(plug, d)])
  /\ (timedelta_minutes ct < dt_sub d plug ->
      0 <= ct -> valid_time os -> valid_time oe ->
      exists off peak sched,
        off_peak_and_peak_periods plug d os oe = Some (off, peak)
        /\ schedule rb ct plug os oe ms = Some sched
        /\ total_duration sched <= timedelta_minutes ct
        /\ (allocation_covered off peak (timedelta_minutes ct) ms ->
            total_duration sched = timedelta_minutes ct)).
Proof.
  intros Hd. split.
  - intros Hle. now apply schedule_short.
  - intros Hgt Hct Hos Hoe.
    destruct (off_peak_and_peak_periods_some plug d os oe Hos Hoe)
      as (off & peak & Hp).
    exists off, peak. eexists. split; [exact Hp|].
    split; [eapply schedule_long; eassumption|].
    assert (Hr : 0 <= timedelta_minutes ct)
      by (unfold timedelta_minutes, US_PER_MINUTE; lia).
    rewrite total_duration_simplify.
    split; [now apply charging_periods_total_le|].
    intros Hcov. apply charging_periods_total_covered; try assumption.
    destruct (schedule_partition plug d rb os oe off peak Hd Hp)
      as (s & e & Hshape & H1 & H2 & H3).
    unfold dt_sub in Hgt.
    destruct (partition_shape_totals _ _ _ _ _ _ Hshape H1 H2 H3)
      as [[-> ->] | [Hsum _]].
    + rewrite total_duration_cons. change (total_duration []) with 0.
      rewrite duration_pair. lia.
    + lia.
Qed.

Lemma schedule_total_duration_witness :
  schedule (7, 0) 738 plug_in_minute (0, 30) (7, 30) measures_example
  = Some [(plug_in_minute, deadline_minute)]
  /\ exists off peak sched,
      off_peak_and_peak_periods plug_in_minute deadline_minute (0, 30) (7, 30)
      = Some (off, peak)
      /\ schedule (7, 0) 300 plug_in_minute (0, 30) (7, 30) measures_example
         = Some sched
      /\ total_duration sched = timedelta_minutes 300.
Proof.
  assert (Hd : next_datetime_with_time plug_in_minute (7, 0)
               = Some deadline_minute) by (vm_compute; reflexivity).
  split.
  - apply (proj1 (schedule_total_duration (7, 0) 738 plug_in_minute
                    (0, 30) (7, 30) measures_example deadline_minute Hd)).
    vm_compute. discriminate.
  - destruct (proj2 (schedule_total_duration (7, 0) 300 plug_in_minute
                       (0, 30) (7, 30) measures_example deadline_minute Hd))
      as (off & peak & sched & Hp & Hs & _ & Heq).
    + vm_compute. reflexivity.
    + lia.
    + unfold valid_time; simpl; lia.
    + unfold valid_time; simpl; lia.
    + exists off, peak, sched. split; [exact Hp|]. split; [exact Hs|].
      apply Heq. vm_compute in Hp. injection Hp as <- <-.
      split; intros _; [right|]; vm_compute; discriminate.
Defined.

(** C3, as stated, fails: one candidate of 390 min, 300 min required and an
    empty forecast series give the empty list, whose total is not the
    requirement although the candidates hold it. *)
Lemma optimize_co2_sized_counterexample :
  ~ (0 <= timedelta_minutes 300 ->
     total_duration (optimize_co2 candidates_example (timedelta_minutes 300) [])
     <= timedelta_minutes 300
     /\ (timedelta_minutes 300 <= total_duration candidates_example ->
         total_duration
           (optimize_co2 candidates_example (timedelta_minutes 300) [])
         = timedelta_minutes 300)).
Proof.
  intros H. destruct H as [_ H]; [vm_compute; discriminate|].
  assert (Hc : timedelta_minutes 300 <= total_duration candidates_example)
    by (vm_compute; discriminate).
  specialize (H Hc). vm_compute in H. discriminate.
Qed.

(** C3 (amended): for every candidate list, every required duration >= 0
    and every forecast series, the durations of the returned intervals sum
    to at most the requirement; the sum equals the requirement when the
    candidates total exactly the requirement, and when they total more and
    the clipped forecast entries total at least the requirement.  When the
    candidates total more than the requirement and no forecast entry
    survives the clipping (an empty series included), the result is
    empty. *)
Theorem optimize_co2_sized (periods : list period) (r : timedelta)
        (ms : list co2_measure) :
  0 <= r ->
  total_duration (optimize_co2 periods r ms) <= r
  /\ (total_duration periods = r ->
      total_duration (optimize_co2 periods r ms) = r)
  /\ (r < total_duration periods ->
      r <= forecast_total (co2_forecasts periods ms) ->
      total_duration (optimize_co2 periods r ms) = r)
  /\ (r < total_duration periods ->
      co2_forecasts periods ms = [] ->
      optimize_co2 periods r ms = [])
  /\ co2_forecasts periods [] = [].
Proof.
  intros Hr. split; [now apply optimize_co2_total_le|].
  split; [intros Heq; rewrite optimize_co2_passthrough; lia|].
  split; [intros; now apply optimize_co2_total_covered|].
  split; [|reflexivity].
  intros Hgt Hnil. rewrite optimize_co2_greedy by assumption.
  unfold sorted_co2_forecasts. rewrite Hnil. reflexivity.
Qed.

Lemma optimize_co2_sized_witness :
  total_duration
    (optimize_co2 candidates_example (timedelta_minutes 300) measures_example)
  = timedelta_minutes 300
  /\ optimize_co2 candidates_example (timedelta_minutes 300) [] = [].
Proof.
  assert (Hr : 0 <= timedelta_minutes 300) by (vm_compute; discriminate).
  pose proof (optimize_co2_sized candidates_example (timedelta_minutes 300)
                measures_example Hr) as (_ & _ & Hcov & _).
  pose proof (optimize_co2_sized candidates_example (timedelta_minutes 300)
                [] Hr) as (_ & _ & _ & Hnil & Hclip).
  split.
  - apply Hcov; vm_compute; [reflexivity | discriminate].
  - apply Hnil; [vm_compute; reflexivity | exact Hclip].
Defined.

(** C5: for well-formed candidates and forecast records and a requirement
    >= 0, whenever the candidates total more than the requirement the
    returned intervals total exactly the minimum of the requirement and of
    the total duration of the shifted-and-clipped forecast sub-intervals:
    the sum, over every record and every candidate, of the time the record
    moved on by one week shares with the candidate, which is also what the
    entries kept by the allocator total. *)
Theorem optimize_co2_total_min (periods : list period) (r : timedelta)
        (ms : list co2_measure) :
  0 <= r -> Forall wf_period periods -> Forall wf_measure ms ->
  r < total_duration periods ->
  total_duration (optimize_co2 periods r ms)
  = Z.min r (overlap_total periods ms)
  /\ forecast_total (co2_forecasts periods ms) = overlap_total periods ms.
Proof.
  intros Hr Hp Hm Hgt.
  pose proof (forecast_total_overlap periods ms Hp Hm) as Hov.
  split; [|exact Hov].
  rewrite optimize_co2_greedy, total_duration_simplify by assumption.
  rewrite charge_loop_total_min.
  - now rewrite forecast_total_sorted, Hov.
  - assumption.
  - eapply Permutation_Forall;
      [apply Permutation_sym; unfold sorted_co2_forecasts; apply sorted_perm|].
    now apply co2_forecasts_nonneg.
Qed.

Lemma optimize_co2_total_min_witness :
  overlap_total candidates_example measures_example = 23400000000
  /\ total_duration
       (optimize_co2 candidates_example (timedelta_minutes 300)
          measures_example)
     = 18000000000
  /\ total_duration
       (optimize_co2 [(plug_in_minute, deadline_minute)]
          (timedelta_minutes 400)
          [ mk_co2_measure (datetime_of 2019 9 28 1 0 0 0 0)
                           (datetime_of 2019 9 28 2 0 0 0 0) 100 ])
     = 3600000000.
Proof.
  assert (Hc : Forall wf_period candidates_example)
    by (repeat constructor; vm_compute; discriminate).
  split; [vm_compute; reflexivity|]. split.
  - destruct (optimize_co2_total_min candidates_example
                (timedelta_minutes 300) measures_example) as [H _].
    + vm_compute; discriminate.
    + exact Hc.
    + repeat constructor; vm_compute; discriminate.
    + vm_compute; reflexivity.
    + rewrite H. vm_compute. reflexivity.
  - destruct (optimize_co2_total_min
                [(plug_in_minute, deadline_minute)]
                (timedelta_minutes 400)
                [ mk_co2_measure (datetime_of 2019 9 28 1 0 0 0 0)
                                 (datetime_of 2019 9 28 2 0 0 0 0) 100 ])
      as [H _].
    + vm_compute; discriminate.
    + repeat constructor; vm_compute; discriminate.
    + repeat constructor; vm_compute; discriminate.
    + vm_compute; reflexivity.
    + rewrite H. vm_compute. reflexivity.
Defined.

(** C2, as stated, fails: plugged in at 23:00 with a deadline at 05:00 and
    an off-peak window 22:00-06:00, both lists are the whole window, which
    overlaps itself. *)
Lemma off_peak_and_peak_periods_partition_counterexample :
  ~ (utc plug_in_late < utc deadline_early ->
     forall off peak,
       off_peak_and_peak_periods plug_in_late deadline_early (22, 0) (6, 0)
       = Some (off, peak) ->
       partitions plug_in_late deadline_early off peak).
Proof.
  intros H.
  assert (Hlt : utc plug_in_late < utc deadline_early)
    by (vm_compute; reflexivity).
  assert (E : off_peak_and_peak_periods plug_in_late deadline_early
                (22, 0) (6, 0)
              = Some ([(plug_in_late, deadline_early)],
                      [(plug_in_late, deadline_early)]))
    by (vm_compute; reflexivity).
  destruct (H Hlt _ _ E) as [_ Hpairs].
  simpl in Hpairs. inversion Hpairs as [|p l Hall _]; subst.
  inversion Hall as [|q l' Hdis _]; subst.
  apply (Hdis (utc plug_in_late)).
  unfold covers; simpl. lia.
Qed.

(** C2 (amended): for every plug-in instant, every ready-by instant
    strictly after it and every valid off-peak window, with [s] and [e] the
    next occurrences of the window's start and end after the plug-in: unless
    [e < s] and [readyBy <= e], the two lists consist of pairwise
    non-overlapping intervals whose union is exactly [[plugIn, readyBy)];
    when [e < s] and [readyBy <= e], both lists are the single interval
    [[plugIn, readyBy)]. *)
Theorem off_peak_and_peak_periods_partition (plug_in ready_by : datetime)
        (os oe : wall_clock) :
  utc plug_in < utc ready_by -> valid_time os -> valid_time oe ->
  exists s e off peak,
    next_datetime_with_time plug_in os = Some s
    /\ next_datetime_with_time plug_in oe = Some e
    /\ off_peak_and_peak_periods plug_in ready_by os oe = Some (off, peak)
    /\ (~ (utc e < utc s /\ utc ready_by <= utc e) ->
        partitions plug_in ready_by off peak)
    /\ (utc e < utc s /\ utc ready_by <= utc e ->
        off = [(plug_in, ready_by)] /\ peak = [(plug_in, ready_by)]).
Proof.
  intros Hrb Hos Hoe.
  destruct (off_peak_and_peak_periods_some plug_in ready_by os oe Hos Hoe)
    as (off & peak & Hp).
  destruct (off_peak_and_peak_periods_shape _ _ _ _ _ _ Hp)
    as (s & e & Hs & He & Hshape).
  exists s, e, off, peak. repeat (split; [assumption|]).
  apply next_datetime_with_time_inv in Hs. destruct Hs as (_ & Hs & _).
  apply next_datetime_with_time_inv in He. destruct He as (_ & He & _).
  split.
  - intros Hspan. eapply partition_shape_partitions; eauto; lia.
  - intros [H1 H2]. destruct Hshape; try lia. split; reflexivity.
Qed.

Lemma off_peak_and_peak_periods_partition_witness :
  exists off peak,
    off_peak_and_peak_periods plug_in_minute deadline_minute (0, 30) (7, 30)
    = Some (off, peak)
    /\ partitions plug_in_minute deadline_minute off peak.
Proof.
  destruct (off_peak_and_peak_periods_partition plug_in_minute
              deadline_minute (0, 30) (7, 30))
    as (s & e & off & peak & Hs & He & Hp & Hpart & _).
  - vm_compute; reflexivity.
  - unfold valid_time; simpl; lia.
  - unfold valid_time; simpl; lia.
  - exists off, peak. split; [exact Hp|]. apply Hpart.
    vm_compute in Hs. injection Hs as <-.
    vm_compute in He. injection He as <-.
    intros [H _]. vm_compute in H. discriminate.
Defined.

(** C4: at the reference 2019-10-04T18:42:12Z and the wall-clock time 07:00
    the code returns 2019-10-05T07:00:12Z, keeping the twelve seconds of the
    reference; the instant 2019-10-05T07:00:00Z, which the claim names, is
    strictly after the reference, has the wall-clock time 07:00 and is
    strictly earlier than what is returned. *)
Theorem next_datetime_with_time_keeps_seconds :
  next_datetime_with_time plug_in_example (7, 0)
  = Some (datetime_of 2019 10 5 7 0 12 0 0)
  /\ utc plug_in_example < utc (datetime_of 2019 10 5 7 0 0 0 0)
  /\ utc (datetime_of 2019 10 5 7 0 0 0 0)
     < utc (datetime_of 2019 10 5 7 0 12 0 0)
  /\ hour (datetime_of 2019 10 5 7 0 0 0 0) = 7
  /\ minute (datetime_of 2019 10 5 7 0 0 0 0) = 0.
Proof. vm_compute. repeat split; reflexivity. Qed.

(** C6: the allocator emits a zero-width interval.  With the candidate
    2019-10-05 00:30-07:00, 300 min required and the two forecast records
    of [measures_example], the record ending at 00:30 passes the test of
    the comprehension, is clipped to [00:30, 00:30) and, being the cleanest,
    is appended whole; the same interval is in the final schedule. *)
Theorem optimize_co2_emits_degenerate :
  optimize_co2 candidates_example (timedelta_minutes 300) measures_example
  = [ (datetime_of 2019 10 5 0 30 0 0 0, datetime_of 2019 10 5 0 30 0 0 0);
      (datetime_of 2019 10 5 0 30 0 0 0, datetime_of 2019 10 5 5 30 0 0 0) ]
  /\ schedule (7, 0) 300 plug_in_minute (0, 30) (7, 30) measures_example
     = Some
         [ (datetime_of 2019 10 5 0 30 0 0 0, datetime_of 2019 10 5 0 30 0 0 0);
           (datetime_of 2019 10 5 0 30 0 0 0, datetime_of 2019 10 5 5 30 0 0 0) ]
  /\ ~ proper (datetime_of 2019 10 5 0 30 0 0 0,
               datetime_of 2019 10 5 0 30 0 0 0).
Proof.
  split; [vm_compute; reflexivity|].
  split; [vm_compute; reflexivity|].
  unfold proper. simpl. lia.
Qed.

(** C7: whenever the charge duration is at most the total duration of the
    off-peak periods, a schedule is returned and each of its intervals lies
    within one of the off-peak periods; where the two lists partition the
    window, no interval of the schedule shares an instant with a peak
    period. *)
Theorem schedule_off_peak_first (rb : wall_clock) (ct : Z) (plug : datetime)
        (os oe : wall_clock) (ms : list co2_measure) (d : datetime)
        (off peak : list period) :
  next_datetime_with_time plug rb = Some d ->
  off_peak_and_peak_periods plug d os oe = Some (off, peak) ->
  timedelta_minutes ct <= total_duration off ->
  exists sched,
    schedule rb ct plug os oe ms = Some sched
    /\ (forall q, In q sched -> exists p, In p off /\ within q p)
    /\ (partitions plug d off peak ->
        forall q pk, In q sched -> In pk peak -> disjoint q pk).
Proof.
  intros Hd Hp Hle.
  assert (Hoff : exists sched,
             schedule rb ct plug os oe ms = Some sched
             /\ forall q, In q sched -> exists p, In p off /\ within q p).
  { destruct (Z.le_gt_cases (dt_sub d plug) (timedelta_minutes ct))
      as [Hshort | Hlong].
    - exists [(plug, d)]. split; [now apply schedule_short|].
      intros q [<- | []].
      destruct (schedule_partition plug d rb os oe off peak Hd Hp)
        as (s & e & Hshape & H1 & H2 & H3).
      unfold dt_sub in Hshort.
      destruct (partition_shape_totals _ _ _ _ _ _ Hshape H1 H2 H3)
        as [[-> _] | [_ Hlt]]; [|lia].
      exists (plug, d). split; [now left | unfold within; lia].
    - eexists. split; [eapply schedule_long; eassumption|].
      intros q Hq. apply sorted_in in Hq. unfold charging_periods in Hq.
      destruct (Z.leb_spec (timedelta_minutes ct) (total_duration off));
        [|lia].
      now apply optimize_co2_in_within in Hq. }
  destruct Hoff as (sched & Hs & Hin).
  exists sched. split; [assumption|]. split; [assumption|].
  intros [_ Hpairs] q pk Hq Hpk.
  destruct (Hin q Hq) as (p & Hpin & Hw).
  eapply within_disjoint; [eassumption|].
  eapply ForallOrdPairs_app_cross; eassumption.
Qed.

Lemma schedule_off_peak_first_witness :
  exists sched,
    schedule (7, 0) 300 plug_in_minute (0, 30) (7, 30) measures_example
    = Some sched
    /\ forall q, In q sched ->
                 exists p, In p candidates_example /\ within q p.
Proof.
  destruct (schedule_off_peak_first (7, 0) 300 plug_in_minute (0, 30) (7, 30)
              measures_example deadline_minute candidates_example
              [(plug_in_minute, datetime_of 2019 10 5 0 30 0 0 0)])
    as (sched & Hs & Hin & _).
  - vm_compute; reflexivity.
  - vm_compute; reflexivity.
  - vm_compute; discriminate.
  - exists sched. split; assumption.
Defined.

(** C8: when the candidates total more than the requirement, the allocator
    sorts the clipped entries by ascending intensity and consumes them as
    the specification words it: whole entries while shorter than the
    remaining need, then a prefix of exactly the remaining need.  Hence,
    whenever a period was taken from an entry, every entry of strictly lower
    intensity was taken whole, being shorter than the need remaining when
    its turn came. *)
Theorem optimize_co2_greedy_order (periods : list period) (r : timedelta)
        (ms : list co2_measure) :
  r < total_duration periods ->
  optimize_co2 periods r ms
  = simplify_periods (charge_loop r (sorted_co2_forecasts periods ms))
  /\ Permutation (sorted_co2_forecasts periods ms) (co2_forecasts periods ms)
  /\ StronglySorted (key_le forecast) (sorted_co2_forecasts periods ms)
  /\ greedy_consume r (sorted_co2_forecasts periods ms)
       (charge_loop r (sorted_co2_forecasts periods ms))
  /\ (forall i j lo hi,
         nth_error (sorted_co2_forecasts periods ms) i = Some lo ->
         nth_error (sorted_co2_forecasts periods ms) j = Some hi ->
         forecast lo < forecast hi ->
         (j < length (charge_loop r (sorted_co2_forecasts periods ms)))%nat ->
         nth_error (charge_loop r (sorted_co2_forecasts periods ms)) i
         = Some (co2_period lo)
         /\ duration (co2_period lo)
            < r - forecast_total
                    (firstn i (sorted_co2_forecasts periods ms))).
Proof.
  intros Hgt.
  split; [now apply optimize_co2_greedy|].
  split; [apply sorted_perm|].
  split; [apply sorted_sorted|].
  split; [apply charge_loop_greedy|].
  intros i j lo hi Hi Hj Hlt Hlen.
  assert (Hij : (i < j)%nat).
  { destruct (Nat.lt_trichotomy i j) as [H | [-> | H]]; [assumption| |].
    - rewrite Hi in Hj. injection Hj as ->. lia.
    - pose proof (StronglySorted_nth _ _ _ _ _ _
                    (sorted_sorted forecast (co2_forecasts periods ms))
                    H Hj Hi) as Hle.
      unfold key_le in Hle. lia. }
  apply charge_loop_before_last; [lia | assumption].
Qed.

Lemma optimize_co2_greedy_order_witness :
  nth_error
    (charge_loop (timedelta_minutes 300)
       (sorted_co2_forecasts candidates_example measures_example)) 0
  = Some (datetime_of 2019 10 5 0 30 0 0 0, datetime_of 2019 10 5 0 30 0 0 0).
Proof.
  assert (Hgt : timedelta_minutes 300 < total_duration candidates_example)
    by (vm_compute; reflexivity).
  destruct (optimize_co2_greedy_order candidates_example
              (timedelta_minutes 300) measures_example Hgt)
    as (_ & _ & _ & _ & Horder).
  destruct (Horder 0%nat 1%nat
              (mk_co2_forecast (datetime_of 2019 10 5 0 30 0 0 0)
                 (datetime_of 2019 10 5 0 30 0 0 0) 100)
              (mk_co2_forecast (datetime_of 2019 10 5 0 30 0 0 0)
                 (datetime_of 2019 10 5 7 0 0 0 0) 200)) as [Hnth _].
  - vm_compute; reflexivity.
  - vm_compute; reflexivity.
  - simpl; lia.
  - vm_compute; lia.
  - exact Hnth.
Defined.

(** C9: the schedule returned is sorted ascending by interval start, the
    instant [utc (fst p)] of each interval being no later than that of every
    interval after it; and it is a rearrangement of the charging periods
    computed: the single interval of the short-circuit, or the list built
    after the partition, of which it keeps every interval, duplicates and
    overlaps included, and the relative order of the intervals of equal
    start. *)
Theorem schedule_sorted_unmerged (rb : wall_clock) (ct : Z) (plug : datetime)
        (os oe : wall_clock) (ms : list co2_measure) :
  (valid_time rb -> valid_time os -> valid_time oe ->
   exists sched, schedule rb ct plug os oe ms = Some sched)
  /\ (forall sched,
         schedule rb ct plug os oe ms = Some sched ->
         StronglySorted (fun p q => utc (fst p) <= utc (fst q)) sched
         /\ exists d,
             next_datetime_with_time plug rb = Some d
             /\ (dt_sub d plug <= timedelta_minutes ct ->
                 sched = [(plug, d)])
             /\ (timedelta_minutes ct < dt_sub d plug ->
                 exists off peak,
                   off_peak_and_peak_periods plug d os oe = Some (off, peak)
                   /\ Permutation sched
                        (charging_periods off peak (timedelta_minutes ct) ms)
                   /\ forall k,
                       filter (fun p => utc (fst p) =? k) sched
                       = filter (fun p => utc (fst p) =? k)
                           (charging_periods off peak
                              (timedelta_minutes ct) ms))).
Proof.
  split.
  - intros Hrb Hos Hoe.
    destruct (next_datetime_with_time_bounds plug rb Hrb) as (d & Hd & _).
    destruct (Z.le_gt_cases (dt_sub d plug) (timedelta_minutes ct)).
    + eexists. eapply schedule_short; eassumption.
    + destruct (off_peak_and_peak_periods_some plug d os oe Hos Hoe)
        as (off & peak & Hp).
      eexists. eapply schedule_long; eassumption.
  - intros sched Hs.
    destruct (next_datetime_with_time plug rb) as [d|] eqn:Hd;
      [|unfold schedule in Hs; rewrite Hd in Hs; discriminate].
    destruct (Z.le_gt_cases (dt_sub d plug) (timedelta_minutes ct))
      as [Hshort | Hlong].
    + rewrite (schedule_short _ _ _ os oe ms _ Hd Hshort) in Hs.
      injection Hs as <-.
      split; [repeat constructor|].
      exists d. split; [reflexivity|]. split; [reflexivity | lia].
    + destruct (off_peak_and_peak_periods plug d os oe) as [[off peak]|] eqn:Hp.
      * rewrite (schedule_long _ _ _ _ _ ms _ _ _ Hd Hlong Hp) in Hs.
        injection Hs as <-.
        split.
        { exact (sorted_sorted period_start
                   (charging_periods off peak (timedelta_minutes ct) ms)). }
        exists d. split; [reflexivity|]. split; [lia|].
        intros _. exists off, peak. split; [exact Hp|].
        split; [apply sorted_perm|]. intros k.
        exact (sorted_stable period_start k
                 (charging_periods off peak (timedelta_minutes ct) ms)).
      * unfold schedule in Hs. rewrite Hd, Hp in Hs.
        destruct (Z.leb_spec (dt_sub d plug) (timedelta_minutes ct));
          [lia | discriminate].
Qed.

Lemma schedule_sorted_unmerged_witness :
  schedule (7, 0) 600 plug_in_minute (0, 30) (7, 30) measures_example
  = Some
      [ (datetime_of 2019 10 5 0 0 0 0 0, datetime_of 2019 10 5 0 30 0 0 0);
        (datetime_of 2019 10 5 0 30 0 0 0, deadline_minute);
        (datetime_of 2019 10 5 0 30 0 0 0, datetime_of 2019 10 5 0 30 0 0 0) ]
  /\ StronglySorted (fun p q => utc (fst p) <= utc (fst q))
       [ (datetime_of 2019 10 5 0 0 0 0 0, datetime_of 2019 10 5 0 30 0 0 0);
         (datetime_of 2019 10 5 0 30 0 0 0, deadline_minute);
         (datetime_of 2019 10 5 0 30 0 0 0,
          datetime_of 2019 10 5 0 30 0 0 0) ]
  /\ charging_periods candidates_example
       [(plug_in_minute, datetime_of 2019 10 5 0 30 0 0 0)]
       (timedelta_minutes 600) measures_example
     = [ (datetime_of 2019 10 5 0 30 0 0 0, deadline_minute);
         (datetime_of 2019 10 5 0 0 0 0 0, datetime_of 2019 10 5 0 30 0 0 0);
         (datetime_of 2019 10 5 0 30 0 0 0,
          datetime_of 2019 10 5 0 30 0 0 0) ].
Proof.
  assert (Hs : schedule (7, 0) 600 plug_in_minute (0, 30) (7, 30)
                 measures_example
               = Some
                   [ (datetime_of 2019 10 5 0 0 0 0 0,
                      datetime_of 2019 10 5 0 30 0 0 0);
                     (datetime_of 2019 10 5 0 30 0 0 0, deadline_minute);
                     (datetime_of 2019 10 5 0 30 0 0 0,
                      datetime_of 2019 10 5 0 30 0 0 0) ])
    by (vm_compute; reflexivity).
  split; [exact Hs|]. split; [|vm_compute; reflexivity].
  exact (proj1 (proj2 (schedule_sorted_unmerged (7, 0) 600 plug_in_minute
                         (0, 30) (7, 30) measures_example) _ Hs)).
Defined.

(** C10: whenever the candidates total more than the requirement, every
    interval the allocator returns lies within one of the candidates; and
    outside the short-circuit, for a valid off-peak window, a schedule is
    returned and every interval of it lies within [[plugIn, deadline)]. *)
Theorem optimize_co2_within_candidates :
  (forall periods r ms q,
      r < total_duration periods ->
      In q (optimize_co2 periods r ms) ->
      exists p, In p periods /\ within q p)
  /\ (forall rb ct plug os oe ms d,
         next_datetime_with_time plug rb = Some d ->
         timedelta_minutes ct < dt_sub d plug ->
         valid_time os -> valid_time oe ->
         exists sched,
           schedule rb ct plug os oe ms = Some sched
           /\ forall q, In q sched -> within q (plug, d)).
Proof.
  split.
  - intros periods r ms q _ Hq. now apply optimize_co2_in_within in Hq.
  - intros rb ct plug os oe ms d Hd Hlong Hos Hoe.
    destruct (off_peak_and_peak_periods_some plug d os oe Hos Hoe)
      as (off & peak & Hp).
    eexists. split; [eapply schedule_long; eassumption|].
    intros q Hq. apply sorted_in in Hq.
    eapply charging_periods_in_window; eassumption.
Qed.

Lemma optimize_co2_within_candidates_witness :
  (exists p, In p candidates_example
             /\ within (datetime_of 2019 10 5 0 30 0 0 0,
                        datetime_of 2019 10 5 5 30 0 0 0) p)
  /\ exists sched,
      schedule (7, 0) 300 plug_in_minute (0, 30) (7, 30) measures_example
      = Some sched
      /\ forall q, In q sched -> within q (plug_in_minute, deadline_minute).
Proof.
  split.
  - apply (proj1 optimize_co2_within_candidates candidates_example
             (timedelta_minutes 300) measures_example).
    + vm_compute; reflexivity.
    + vm_compute. right. left. reflexivity.
  - apply (proj2 optimize_co2_within_candidates (7, 0) 300 plug_in_minute
             (0, 30) (7, 30) measures_example deadline_minute).
    + vm_compute; reflexivity.
    + vm_compute; reflexivity.
    + unfold valid_time; simpl; lia.
    + unfold valid_time; simpl; lia.
Defined.

(* ================================================================= *)
(** ** Further properties of [utils.py] *)

Section TimeOfDay.

Lemma div_chain (x : Z) :
  x / US_PER_MINUTE = x / 1000000 / 60
  /\ x / US_PER_HOUR = x / 1000000 / 60 / 60
  /\ x / US_PER_DAY = x / 1000000 / 60 / 60 / 24.
Proof.
  unfold US_PER_MINUTE, US_PER_HOUR, US_PER_DAY.
  rewrite !Z.div_div by lia. repeat split; reflexivity.
Qed.

(** Two counts with the same hour, minute, second and microsecond differ by
    whole days. *)
Lemma same_time_of_day (x y : Z) :
  (x / US_PER_HOUR) mod 24 = (y / US_PER_HOUR) mod 24 ->
  (x / US_PER_MINUTE) mod 60 = (y / US_PER_MINUTE) mod 60 ->
  (x / 1000000) mod 60 = (y / 1000000) mod 60 ->
  x mod 1000000 = y mod 1000000 ->
  x - y = (x / US_PER_DAY - y / US_PER_DAY) * US_PER_DAY.
Proof.
  destruct (div_chain x) as (-> & -> & ->).
  destruct (div_chain y) as (-> & -> & ->).
  unfold US_PER_DAY. intros H1 H2 H3 H4.
  Z.div_mod_to_equations; lia.
Qed.

(** Setting the hour and the minute stays on the same date, and does not
    move forward exactly when the new time of day is not later. *)
Lemma replace_same_date (L hh mm : Z) :
  0 <= hh < 24 -> 0 <= mm < 60 ->
  let hc := (L / US_PER_HOUR) mod 24 in
  let mc := (L / US_PER_MINUTE) mod 60 in
  let L' := L + (hh - hc) * US_PER_HOUR + (mm - mc) * US_PER_MINUTE in
  L' / US_PER_DAY = L / US_PER_DAY
  /\ (L' <= L <-> (hh < hc \/ (hh = hc /\ mm <= mc))).
Proof.
  intros Hh Hm hc mc L'. subst hc mc L'.
  destruct (div_chain L) as (-> & -> & ->).
  match goal with
  | |- ?a / _ = _ /\ _ => destruct (div_chain a) as (_ & _ & ->)
  end.
  unfold US_PER_DAY, US_PER_HOUR, US_PER_MINUTE.
  split; [|split; intros H]; Z.div_mod_to_equations; lia.
Qed.

Lemma toordinal_next_day (d : datetime) :
  toordinal (dt_add d (timedelta_days 1)) = toordinal d + 1.
Proof.
  unfold toordinal, dt_add, timedelta_days. cbn [local_us].
  apply Z.div_add. unfold US_PER_DAY. lia.
Qed.

End TimeOfDay.

(** X1: what [next_datetime_with_time] returns is strictly after [current]
    and at most one day after it, has the requested hour and minute and the
    second, microsecond and UTC offset of [current]; and it is the earliest
    instant after [current] with these fields. *)
Theorem next_datetime_with_time_earliest (current : datetime)
        (time : wall_clock) (r : datetime) :
  next_datetime_with_time current time = Some r ->
  (utc current < utc r <= utc current + US_PER_DAY
   /\ utcoffset r = utcoffset current
   /\ hour r = fst time /\ minute r = snd time
   /\ second r = second current /\ microsecond r = microsecond current)
  /\ forall r',
      utcoffset r' = utcoffset current -> utc current < utc r' ->
      hour r' = fst time -> minute r' = snd time ->
      second r' = second current -> microsecond r' = microsecond current ->
      utc r <= utc r'.
Proof.
  intros H.
  destruct (next_datetime_with_time_inv _ _ _ H) as (_ & Hb & Hoff).
  destruct (next_datetime_with_time_fields _ _ _ H) as (Hh & Hm & Hs & Hus).
  split; [repeat split; try assumption; lia|].
  intros r' Hoff' Hafter Hh' Hm' Hs' Hus'.
  pose proof (same_time_of_day (local_us r) (local_us r')) as Hday.
  unfold hour, minute, second, microsecond in *.
  specialize (Hday ltac:(congruence) ltac:(congruence) ltac:(congruence)
                   ltac:(congruence)).
  unfold utc in *. rewrite Hoff, Hoff' in *.
  unfold US_PER_DAY in *. nia.
Qed.

Lemma next_datetime_with_time_earliest_witness :
  utc plug_in_minute < utc deadline_minute
  /\ forall r',
      utcoffset r' = utcoffset plug_in_minute ->
      utc plug_in_minute < utc r' ->
      hour r' = 7 -> minute r' = 0 ->
      second r' = second plug_in_minute ->
      microsecond r' = microsecond plug_in_minute ->
      utc deadline_minute <= utc r'.
Proof.
  assert (H : next_datetime_with_time plug_in_minute (7, 0)
              = Some deadline_minute) by (vm_compute; reflexivity).
  destruct (next_datetime_with_time_earliest plug_in_minute (7, 0)
              deadline_minute H) as [(Hb & _) Hmin].
  split; [apply Hb | exact Hmin].
Defined.

(** X2: the result is on the calendar date of [current] when the requested
    time of day is later than the hour and minute of [current], and on the
    next date otherwise; when [current] already shows the requested hour and
    minute the result is exactly one day later. *)
Theorem next_datetime_with_time_date (current : datetime) (hh mm : Z)
        (r : datetime) :
  next_datetime_with_time current (hh, mm) = Some r ->
  toordinal r
  = (if (hour current <? hh) || ((hour current =? hh) && (minute current <? mm))
     then toordinal current else toordinal current + 1)
  /\ (hour current = hh -> minute current = mm ->
      r = dt_add current (timedelta_days 1)).
Proof.
  intros H.
  destruct (next_datetime_with_time_inv _ _ _ H) as ([Hh Hm] & _ & _).
  simpl in Hh, Hm.
  pose proof (replace_same_date (local_us current) hh mm Hh Hm) as [Hord Hle].
  unfold next_datetime_with_time, replace in H.
  rewrite (proj2 (valid_timeb_iff (hh, mm))) in H by (split; assumption).
  unfold dt_leb, utc in H. cbn [local_us utcoffset] in H.
  fold (hour current) (minute current) in Hord, Hle.
  split.
  - destruct (Z.leb_spec
                (local_us current + (hh - hour current) * US_PER_HOUR
                 + (mm - minute current) * US_PER_MINUTE - utcoffset current)
                (local_us current - utcoffset current)) as [Hc | Hc];
      injection H as <-; rewrite ?toordinal_next_day;
      unfold toordinal; cbn [local_us]; rewrite Hord;
      destruct (Z.ltb_spec (hour current) hh);
      destruct (Z.eqb_spec (hour current) hh);
      destruct (Z.ltb_spec (minute current) mm); cbn [orb andb];
      unfold US_PER_HOUR, US_PER_MINUTE in *; lia.
  - intros <- <-.
    destruct (Z.leb_spec
                (local_us current + (hour current - hour current) * US_PER_HOUR
                 + (minute current - minute current) * US_PER_MINUTE
                 - utcoffset current)
                (local_us current - utcoffset current)) as [Hc | Hc];
      [|unfold US_PER_HOUR, US_PER_MINUTE in *; lia].
    injection H as <-. unfold dt_add. cbn [local_us utcoffset].
    apply (f_equal (fun l => mk_datetime l (utcoffset current))).
    unfold US_PER_HOUR, US_PER_MINUTE, timedelta_days, US_PER_DAY. lia.
Qed.

Lemma next_datetime_with_time_date_witness :
  toordinal deadline_minute = toordinal plug_in_minute + 1
  /\ next_datetime_with_time deadline_minute (7, 0)
     = Some (dt_add deadline_minute (timedelta_days 1)).
Proof.
  assert (H : next_datetime_with_time plug_in_minute (7, 0)
              = Some deadline_minute) by (vm_compute; reflexivity).
  split.
  - exact (proj1 (next_datetime_with_time_date plug_in_minute 7 0
                    deadline_minute H)).
  - assert (H' : next_datetime_with_time deadline_minute (7, 0)
                 = Some (datetime_of 2019 10 6 7 0 0 0 0))
      by (vm_compute; reflexivity).
    assert (E : datetime_of 2019 10 6 7 0 0 0 0
                = dt_add deadline_minute (timedelta_days 1)).
    { apply (proj2 (next_datetime_with_time_date deadline_minute 7 0
                      (datetime_of 2019 10 6 7 0 0 0 0) H'));
        vm_compute; reflexivity. }
    rewrite H', E. reflexivity.
Defined.

(* ================================================================= *)
(** ** Further properties of [schedule] and of the partition *)

Section ScheduleEdges.

Lemma valid_time_dec (t : wall_clock) : {valid_time t} + {~ valid_time t}.
Proof.
  destruct (valid_timeb t) eqn:E.
  - left. now apply valid_timeb_iff.
  - right. intros H. apply valid_timeb_iff in H. congruence.
Qed.

Lemma off_peak_and_peak_periods_none (plug_in ready_by : datetime)
      (os oe : wall_clock) :
  ~ valid_time os \/ ~ valid_time oe ->
  off_peak_and_peak_periods plug_in ready_by os oe = None.
Proof.
  intros H. unfold off_peak_and_peak_periods.
  destruct (next_datetime_with_time plug_in os) as [s|] eqn:Es;
    [|reflexivity].
  destruct (next_datetime_with_time plug_in oe) as [e|] eqn:Ee;
    [|reflexivity].
  apply next_datetime_with_time_inv in Es, Ee. tauto.
Qed.

(** The off-peak periods of a partition total nothing only when there are
    none. *)
Lemma partition_shape_off_empty (plug_in ready_by s e : datetime)
      (off peak : list period) :
  partition_shape plug_in ready_by s e off peak ->
  utc plug_in < utc ready_by -> utc plug_in < utc s -> utc plug_in < utc e ->
  0 <= total_duration off /\ (total_duration off <= 0 -> off = []).
Proof.
  intros Hshape Hrb Hs He.
  destruct Hshape;
    repeat rewrite total_duration_cons;
    change (total_duration []) with 0; rewrite ?duration_pair;
    (split; [lia | intros; try reflexivity; lia]).
Qed.

(** A list already in order is left as it is. *)
Lemma sorted_id {A : Type} (key : A -> Z) (l : list A) :
  StronglySorted (key_le key) l -> sorted key l = l.
Proof.
  induction 1 as [|x l Hs IH Hall]; simpl; [reflexivity|].
  rewrite IH. destruct l as [|y l']; [reflexivity|]. simpl.
  inversion Hall as [|? ? Hxy _]; subst. unfold key_le in Hxy.
  destruct (Z.leb_spec (key x) (key y)); [reflexivity | lia].
Qed.

End ScheduleEdges.

(** X3: [schedule] raises whenever the ready-by time is out of range, and
    whenever the window is longer than the charge time and one of the
    off-peak times is out of range; in the short-circuit, for a charge time
    a [timedelta] can hold, the off-peak times are never looked at and the
    single interval is returned even when they are out of range. *)
Theorem schedule_failure (rb : wall_clock) (ct : Z) (plug : datetime)
        (os oe : wall_clock) (ms : list co2_measure) :
  (~ valid_time rb -> schedule rb ct plug os oe ms = None)
  /\ (forall d,
         next_datetime_with_time plug rb = Some d ->
         timedelta_minutes ct < dt_sub d plug ->
         ~ valid_time os \/ ~ valid_time oe ->
         schedule rb ct plug os oe ms = None)
  /\ (forall d,
         next_datetime_with_time plug rb = Some d ->
         timedelta_in_range (timedelta_minutes ct) ->
         dt_sub d plug <= timedelta_minutes ct ->
         ~ valid_time os \/ ~ valid_time oe ->
         schedule rb ct plug os oe ms = Some [(plug, d)]).
Proof.
  split; [|split].
  - intros Hrb. unfold schedule.
    now rewrite next_datetime_with_time_none.
  - intros d Hd Hlong Hbad. unfold schedule. rewrite Hd.
    destruct (Z.leb_spec (dt_sub d plug) (timedelta_minutes ct)); [lia|].
    now rewrite off_peak_and_peak_periods_none.
  - intros d Hd _ Hshort _. now apply schedule_short.
Qed.

Lemma schedule_failure_witness :
  schedule (24, 0) 300 plug_in_minute (0, 30) (7, 30) measures_example = None
  /\ schedule (7, 0) 300 plug_in_minute (0, 30) (7, 60) measures_example
     = None
  /\ schedule (7, 0) 738 plug_in_minute (0, 30) (7, 60) measures_example
     = Some [(plug_in_minute, deadline_minute)].
Proof.
  assert (Hd : next_datetime_with_time plug_in_minute (7, 0)
               = Some deadline_minute) by (vm_compute; reflexivity).
  assert (Hbad : ~ valid_time (0, 30) \/ ~ valid_time (7, 60))
    by (right; unfold valid_time; simpl; lia).
  split; [|split].
  - apply (proj1 (schedule_failure (24, 0) 300 plug_in_minute (0, 30) (7, 30)
                    measures_example)).
    unfold valid_time; simpl; lia.
  - apply (proj1 (proj2 (schedule_failure (7, 0) 300 plug_in_minute (0, 30)
                           (7, 60) measures_example)) deadline_minute Hd);
      [vm_compute; reflexivity | exact Hbad].
  - apply (proj2 (proj2 (schedule_failure (7, 0) 738 plug_in_minute (0, 30)
                           (7, 60) measures_example)) deadline_minute Hd);
      [|vm_compute; discriminate | exact Hbad].
    unfold timedelta_in_range. vm_compute. split; discriminate.
Defined.

(** X4: the deadline is at most one day after the plug-in, so a charge time
    of 1440 minutes or more that a [timedelta] can hold always yields the
    single interval from plug-in to deadline, whatever the off-peak times
    and the forecasts. *)
Theorem schedule_day_or_more (rb : wall_clock) (ct : Z) (plug : datetime) :
  valid_time rb -> 1440 <= ct ->
  timedelta_in_range (timedelta_minutes ct) ->
  exists d,
    next_datetime_with_time plug rb = Some d
    /\ forall os oe ms, schedule rb ct plug os oe ms = Some [(plug, d)].
Proof.
  intros Hrb Hct _.
  destruct (next_datetime_with_time_bounds plug rb Hrb) as (d & Hd & Hb & _).
  exists d. split; [assumption|]. intros os oe ms.
  apply schedule_short; [assumption|].
  unfold dt_sub, timedelta_minutes, US_PER_MINUTE, US_PER_DAY in *. lia.
Qed.

Lemma schedule_day_or_more_witness :
  schedule (7, 0) 1440 plug_in_example (0, 30) (99, 99) measures_example
  = Some [(plug_in_example, datetime_of 2019 10 5 7 0 12 0 0)]
  /\ schedule (7, 0) 1439999999999 plug_in_example (0, 30) (7, 30) []
     = Some [(plug_in_example, datetime_of 2019 10 5 7 0 12 0 0)].
Proof.
  assert (Hv : valid_time (7, 0)) by (unfold valid_time; simpl; lia).
  split.
  - destruct (schedule_day_or_more (7, 0) 1440 plug_in_example)
      as (d & Hd & Hall).
    + exact Hv.
    + lia.
    + unfold timedelta_in_range. vm_compute. split; discriminate.
    + vm_compute in Hd. injection Hd as <-. apply Hall.
  - destruct (schedule_day_or_more (7, 0) 1439999999999 plug_in_example)
      as (d & Hd & Hall).
    + exact Hv.
    + lia.
    + unfold timedelta_in_range. vm_compute. split; discriminate.
    + vm_compute in Hd. injection Hd as <-. apply Hall.
Defined.

(** X5: a charge time of zero minutes or less that a [timedelta] can hold
    yields the empty schedule. *)
Theorem schedule_nothing_to_charge (rb : wall_clock) (ct : Z)
        (plug : datetime) (os oe : wall_clock) (ms : list co2_measure) :
  valid_time rb -> valid_time os -> valid_time oe -> ct <= 0 ->
  timedelta_in_range (timedelta_minutes ct) ->
  schedule rb ct plug os oe ms = Some [].
Proof.
  intros Hrb Hos Hoe Hct _.
  destruct (next_datetime_with_time_bounds plug rb Hrb) as (d & Hd & Hb & _).
  destruct (off_peak_and_peak_periods_some plug d os oe Hos Hoe)
    as (off & peak & Hp).
  assert (Hr : timedelta_minutes ct <= 0)
    by (unfold timedelta_minutes, US_PER_MINUTE; lia).
  assert (Hlong : timedelta_minutes ct < dt_sub d plug)
    by (unfold dt_sub; lia).
  rewrite (schedule_long _ _ _ _ _ ms _ _ _ Hd Hlong Hp).
  destruct (schedule_partition plug d rb os oe off peak Hd Hp)
    as (s & e & Hshape & H1 & H2 & H3).
  destruct (partition_shape_off_empty _ _ _ _ _ _ Hshape H1 H2 H3)
    as [Hnn Hempty].
  unfold charging_periods.
  destruct (Z.leb_spec (timedelta_minutes ct) (total_duration off)); [|lia].
  destruct (Z.le_gt_cases (total_duration off) (timedelta_minutes ct))
    as [Hle | Hgt].
  - rewrite optimize_co2_passthrough by assumption.
    rewrite Hempty by lia. reflexivity.
  - rewrite optimize_co2_greedy by assumption.
    rewrite charge_loop_nonpos by assumption. reflexivity.
Qed.

Lemma schedule_nothing_to_charge_witness :
  schedule (7, 0) 0 plug_in_example (0, 30) (7, 30) measures_example
  = Some []
  /\ schedule (7, 0) (-1439999998560) plug_in_example (0, 30) (7, 30)
       measures_example
     = Some [].
Proof.
  split; apply schedule_nothing_to_charge;
    try (unfold valid_time; simpl; lia); try lia;
    unfold timedelta_in_range; vm_compute; split; discriminate.
Defined.

(** X6: an off-peak window whose start and end are the same time gives no
    off-peak period and the whole window as the one peak period; and the
    next occurrences of two different times are never the same instant, so
    no other window takes that branch. *)
Theorem off_peak_and_peak_periods_degenerate (plug_in ready_by : datetime)
        (os oe : wall_clock) :
  valid_time os -> valid_time oe ->
  (os = oe ->
   off_peak_and_peak_periods plug_in ready_by os oe
   = Some ([], [(plug_in, ready_by)]))
  /\ (os <> oe ->
      forall s e,
        next_datetime_with_time plug_in os = Some s ->
        next_datetime_with_time plug_in oe = Some e ->
        utc s <> utc e).
Proof.
  intros Hos Hoe. split.
  - intros <-.
    destruct (next_datetime_with_time_bounds plug_in os Hos) as (s & Hs & _).
    unfold off_peak_and_peak_periods. rewrite Hs.
    unfold dt_eqb. now rewrite Z.eqb_refl.
  - intros Hne s e Hs He Heq. apply Hne.
    destruct (next_datetime_with_time_inv _ _ _ Hs) as (_ & _ & Hoffs).
    destruct (next_datetime_with_time_inv _ _ _ He) as (_ & _ & Hoffe).
    destruct (next_datetime_with_time_fields _ _ _ Hs) as (Hhs & Hms & _).
    destruct (next_datetime_with_time_fields _ _ _ He) as (Hhe & Hme & _).
    assert (Hloc : local_us s = local_us e)
      by (unfold utc in Heq; lia).
    unfold hour, minute in *. rewrite Hloc in *.
    destruct os, oe. simpl in *. congruence.
Qed.

Lemma off_peak_and_peak_periods_degenerate_witness :
  off_peak_and_peak_periods plug_in_minute deadline_minute (0, 30) (0, 30)
  = Some ([], [(plug_in_minute, deadline_minute)])
  /\ utc (datetime_of 2019 10 5 0 30 0 0 0)
     <> utc (datetime_of 2019 10 5 7 30 0 0 0).
Proof.
  assert (Hv : forall h m, 0 <= h < 24 -> 0 <= m < 60 -> valid_time (h, m))
    by (intros; split; assumption).
  split.
  - apply (proj1 (off_peak_and_peak_periods_degenerate plug_in_minute
                    deadline_minute (0, 30) (0, 30)
                    (Hv 0 30 ltac:(lia) ltac:(lia))
                    (Hv 0 30 ltac:(lia) ltac:(lia)))).
    reflexivity.
  - apply (proj2 (off_peak_and_peak_periods_degenerate plug_in_minute
                    deadline_minute (0, 30) (7, 30)
                    (Hv 0 30 ltac:(lia) ltac:(lia))
                    (Hv 7 30 ltac:(lia) ltac:(lia)))).
    + discriminate.
    + vm_compute; reflexivity.
    + vm_compute; reflexivity.
Defined.

(** X7: outside the branch that returns the whole window twice, the
    durations of the off-peak and of the peak periods add up to the length
    of the window; each of the two lists is already in chronological order,
    and there is always a peak period. *)
Theorem off_peak_and_peak_periods_totals (plug_in ready_by : datetime)
        (os oe : wall_clock) (off peak : list period) :
  off_peak_and_peak_periods plug_in ready_by os oe = Some (off, peak) ->
  utc plug_in < utc ready_by ->
  ((off = [(plug_in, ready_by)] /\ peak = [(plug_in, ready_by)])
   \/ total_duration off + total_duration peak = dt_sub ready_by plug_in)
  /\ simplify_periods off = off
  /\ simplify_periods peak = peak
  /\ peak <> [].
Proof.
  intros Hp Hrb.
  destruct (off_peak_and_peak_periods_shape _ _ _ _ _ _ Hp)
    as (s & e & Hs & He & Hshape).
  apply next_datetime_with_time_inv in Hs. destruct Hs as (_ & Hs & _).
  apply next_datetime_with_time_inv in He. destruct He as (_ & He & _).
  split.
  - destruct (partition_shape_totals _ _ _ _ _ _ Hshape Hrb) as [H | [H _]];
      try lia; [now left | right; unfold dt_sub; lia].
  - unfold simplify_periods.
    destruct Hshape; (split; [|split]); try discriminate;
      apply sorted_id; repeat constructor; unfold key_le, period_start;
      simpl; lia.
Qed.

Lemma off_peak_and_peak_periods_totals_witness :
  total_duration candidates_example
  + total_duration [(plug_in_minute, datetime_of 2019 10 5 0 30 0 0 0)]
  = dt_sub deadline_minute plug_in_minute.
Proof.
  destruct (off_peak_and_peak_periods_totals plug_in_minute deadline_minute
              (0, 30) (7, 30) candidates_example
              [(plug_in_minute, datetime_of 2019 10 5 0 30 0 0 0)])
    as ([[H _] | H] & _).
  - vm_compute; reflexivity.
  - vm_compute; reflexivity.
  - vm_compute in H. discriminate.
  - exact H.
Defined.

Section OutputFacts.

Lemma charge_loop_wf (r : timedelta) (fcs : list co2_forecast) :
  Forall (fun fc => 0 <= duration (co2_period fc)) fcs ->
  Forall wf_period (charge_loop r fcs).
Proof.
  intros Hall. revert r.
  induction Hall as [|fc fcs Hfc _ IH]; intros r; [constructor|].
  destruct (Z.le_gt_cases r 0) as [Hr | Hr].
  { rewrite charge_loop_nonpos by lia. constructor. }
  destruct (Z.lt_ge_cases (duration (co2_period fc)) r) as [Hd | Hd].
  - rewrite charge_loop_whole by lia. constructor; [|apply IH].
    unfold wf_period, co2_period in *. rewrite duration_pair in Hfc.
    simpl. lia.
  - rewrite charge_loop_prefix by lia. constructor; [|constructor].
    unfold wf_period. simpl. rewrite utc_dt_add. lia.
Qed.

Lemma optimize_co2_wf (periods : list period) (r : timedelta)
      (ms : list co2_measure) :
  Forall wf_period periods -> Forall wf_measure ms ->
  Forall wf_period (optimize_co2 periods r ms).
Proof.
  intros Hp Hm.
  destruct (Z.le_gt_cases (total_duration periods) r) as [Hle | Hgt].
  - now rewrite optimize_co2_passthrough.
  - rewrite optimize_co2_greedy by assumption.
    eapply Permutation_Forall;
      [apply Permutation_sym; unfold simplify_periods; apply sorted_perm|].
    apply charge_loop_wf.
    eapply Permutation_Forall;
      [apply Permutation_sym; unfold sorted_co2_forecasts; apply sorted_perm|].
    now apply co2_forecasts_nonneg.
Qed.

Lemma partition_wf (plug d : datetime) (rb os oe : wall_clock)
      (off peak : list period) :
  next_datetime_with_time plug rb = Some d ->
  off_peak_and_peak_periods plug d os oe = Some (off, peak) ->
  Forall wf_period off /\ Forall wf_period peak.
Proof.
  intros Hd Hp.
  destruct (schedule_partition plug d rb os oe off peak Hd Hp)
    as (s & e & Hshape & H1 & H2 & H3).
  pose proof (partition_shape_proper _ _ _ _ _ _ Hshape H1 H2 H3) as Hall.
  apply Forall_app in Hall. destruct Hall as [Hoff Hpeak].
  split; (eapply Forall_impl; [|eassumption]);
    intros q [Hq _]; unfold proper, wf_period in *; lia.
Qed.

End OutputFacts.

(** X8: when the charge time exceeds what the off-peak periods hold (and
    the window is longer than the charge time), every off-peak period is in
    the schedule as it is, and every other interval of the schedule lies
    within a peak period. *)
Theorem schedule_uses_all_off_peak (rb : wall_clock) (ct : Z)
        (plug : datetime) (os oe : wall_clock) (ms : list co2_measure)
        (d : datetime) (off peak : list period) :
  next_datetime_with_time plug rb = Some d ->
  off_peak_and_peak_periods plug d os oe = Some (off, peak) ->
  total_duration off < timedelta_minutes ct ->
  timedelta_minutes ct < dt_sub d plug ->
  exists sched,
    schedule rb ct plug os oe ms = Some sched
    /\ (forall p, In p off -> In p sched)
    /\ (forall q, In q sched ->
                  In q off \/ exists pk, In pk peak /\ within q pk)
    /\ (length off <= length sched)%nat.
Proof.
  intros Hd Hp Hoff Hlong.
  eexists. split; [eapply schedule_long; eassumption|].
  unfold charging_periods.
  destruct (Z.leb_spec (timedelta_minutes ct) (total_duration off)); [lia|].
  split; [|split].
  - intros p Hin. apply sorted_in. apply in_or_app. now left.
  - intros q Hq. apply sorted_in in Hq. apply in_app_or in Hq.
    destruct Hq as [Hq | Hq]; [now left | right].
    now apply optimize_co2_in_within in Hq.
  - unfold simplify_periods. rewrite sorted_length, length_app. lia.
Qed.

Lemma schedule_uses_all_off_peak_witness :
  exists sched,
    schedule (7, 0) 600 plug_in_minute (0, 30) (7, 30) measures_example
    = Some sched
    /\ forall p, In p candidates_example -> In p sched.
Proof.
  destruct (schedule_uses_all_off_peak (7, 0) 600 plug_in_minute
              (0, 30) (7, 30) measures_example deadline_minute
              candidates_example
              [(plug_in_minute, datetime_of 2019 10 5 0 30 0 0 0)])
    as (sched & Hs & Hin & _).
  - vm_compute; reflexivity.
  - vm_compute; reflexivity.
  - vm_compute; reflexivity.
  - vm_compute; reflexivity.
  - exists sched. split; assumption.
Defined.

(** X9: on forecast records with [from] no later than [to], no interval
    the allocator returns from well-formed candidates, and no interval of
    a schedule, ends before it starts. *)
Theorem schedule_no_negative_interval :
  (forall periods r ms,
      Forall wf_period periods -> Forall wf_measure ms ->
      Forall wf_period (optimize_co2 periods r ms))
  /\ (forall rb ct plug os oe ms sched,
         Forall wf_measure ms ->
         schedule rb ct plug os oe ms = Some sched ->
         Forall wf_period sched).
Proof.
  split; [intros; now apply optimize_co2_wf|].
  intros rb ct plug os oe ms sched Hm Hs.
  destruct (next_datetime_with_time plug rb) as [d|] eqn:Hd;
    [|unfold schedule in Hs; rewrite Hd in Hs; discriminate].
  destruct (Z.le_gt_cases (dt_sub d plug) (timedelta_minutes ct))
    as [Hshort | Hlong].
  - rewrite (schedule_short _ _ _ os oe ms _ Hd Hshort) in Hs.
    injection Hs as <-. constructor; [|constructor].
    apply next_datetime_with_time_inv in Hd.
    unfold wf_period. simpl. lia.
  - destruct (off_peak_and_peak_periods plug d os oe) as [[off peak]|] eqn:Hp.
    + rewrite (schedule_long _ _ _ _ _ ms _ _ _ Hd Hlong Hp) in Hs.
      injection Hs as <-.
      destruct (partition_wf plug d rb os oe off peak Hd Hp) as [Hoff Hpeak].
      eapply Permutation_Forall;
        [apply Permutation_sym; unfold simplify_periods; apply sorted_perm|].
      unfold charging_periods.
      destruct (Z.leb_spec (timedelta_minutes ct) (total_duration off)).
      * now apply optimize_co2_wf.
      * apply Forall_app. split; [assumption | now apply optimize_co2_wf].
    + unfold schedule in Hs. rewrite Hd, Hp in Hs.
      destruct (Z.leb_spec (dt_sub d plug) (timedelta_minutes ct));
        [lia | discriminate].
Qed.

Lemma schedule_no_negative_interval_witness :
  Forall wf_period
    (optimize_co2 candidates_example (timedelta_minutes 300) measures_example)
  /\ Forall wf_period
       [ (datetime_of 2019 10 5 0 30 0 0 0, datetime_of 2019 10 5 0 30 0 0 0);
         (datetime_of 2019 10 5 0 30 0 0 0, datetime_of 2019 10 5 5 30 0 0 0) ].
Proof.
  assert (Hm : Forall wf_measure measures_example)
    by (repeat constructor; vm_compute; discriminate).
  split.
  - apply (proj1 schedule_no_negative_interval); [|exact Hm].
    repeat constructor; vm_compute; discriminate.
  - apply (proj2 schedule_no_negative_interval (7, 0) 300 plug_in_minute
             (0, 30) (7, 30) measures_example); [exact Hm|].
    vm_compute; reflexivity.
Defined.

(** X10: [simplify_periods] leaves a list already ordered by start as it
    is, so applying it twice is applying it once; [schedule] sorts again
    what [optimize_co2] has already sorted. *)
Theorem simplify_periods_idempotent :
  (forall l, StronglySorted (key_le period_start) l ->
             simplify_periods l = l)
  /\ (forall l, simplify_periods (simplify_periods l) = simplify_periods l)
  /\ (forall periods r ms,
         r < total_duration periods ->
         simplify_periods (optimize_co2 periods r ms)
         = optimize_co2 periods r ms).
Proof.
  split; [intros l Hl; now apply sorted_id|].
  split.
  - intros l. apply sorted_id, sorted_sorted.
  - intros periods r ms Hgt. rewrite optimize_co2_greedy by assumption.
    apply sorted_id, sorted_sorted.
Qed.

Lemma simplify_periods_idempotent_witness :
  simplify_periods candidates_example = candidates_example
  /\ simplify_periods
       (optimize_co2 candidates_example (timedelta_minutes 300)
          measures_example)
     = optimize_co2 candidates_example (timedelta_minutes 300)
         measures_example.
Proof.
  destruct simplify_periods_idempotent as (Hid & _ & Hopt).
  split.
  - apply Hid. repeat constructor.
  - apply Hopt. vm_compute; reflexivity.
Defined.

(** X11: [total_duration] of the empty list is the zero timedelta; over a
    concatenation it is the sum of the two totals; and it does not depend on
    the order of the periods, so [simplify_periods] keeps it. *)
Theorem total_duration_additive :
  total_duration [] = 0
  /\ (forall l1 l2,
         total_duration (l1 ++ l2) = total_duration l1 + total_duration l2)
  /\ (forall l1 l2, Permutation l1 l2 -> total_duration l1 = total_duration l2)
  /\ (forall l, total_duration (simplify_periods l) = total_duration l).
Proof.
  split; [reflexivity|].
  split; [apply total_duration_app|].
  split; [apply total_duration_perm | apply total_duration_simplify].
Qed.

Lemma total_duration_additive_witness :
  total_duration
    [(plug_in_minute, datetime_of 2019 10 5 0 30 0 0 0);
     (datetime_of 2019 10 5 0 30 0 0 0, deadline_minute)]
  = total_duration
      [(datetime_of 2019 10 5 0 30 0 0 0, deadline_minute);
       (plug_in_minute, datetime_of 2019 10 5 0 30 0 0 0)].
Proof.
  apply (proj1 (proj2 (proj2 total_duration_additive))).
  apply perm_swap.
Defined.

(* ================================================================= *)
(** ** Further properties of [optimize_co2] *)

Section Optimality.

Lemma weighted_nil (fcs : list co2_forecast) : weighted [] fcs = 0.
Proof. reflexivity. Qed.

Lemma weighted_cons (a : timedelta) (amounts : list timedelta)
      (fc : co2_forecast) (fcs : list co2_forecast) :
  weighted (a :: amounts) (fc :: fcs)
  = a * forecast fc + weighted amounts fcs.
Proof. reflexivity. Qed.

(** Entries of intensity at least [w] emit at least [w] per unit taken. *)
Lemma weighted_lower_bound (w : Z) (amounts : list timedelta)
      (fcs : list co2_forecast) :
  feasible amounts fcs ->
  Forall (fun fc => w <= forecast fc) fcs ->
  w * amount_sum amounts <= weighted amounts fcs.
Proof.
  induction 1 as [|a fc amounts fcs Ha Hrest IH]; intros Hall.
  - simpl. lia.
  - inversion Hall as [|? ? Hw Hall']; subst.
    rewrite weighted_cons. simpl amount_sum. specialize (IH Hall'). nia.
Qed.

(** The loop has a threshold intensity: entries below it are taken whole,
    entries above it are left.  Against any other allocation the difference
    in emission is at least the threshold times the difference in total. *)
Lemma charge_loop_threshold (fcs : list co2_forecast) :
  StronglySorted (key_le forecast) fcs ->
  forall (r : timedelta) (lo : Z),
    Forall (fun fc => lo <= forecast fc) fcs ->
    exists w,
      lo <= w
      /\ forall amounts,
          feasible amounts fcs ->
          weighted (map duration (charge_loop r fcs)) fcs
          + w * (amount_sum amounts - total_duration (charge_loop r fcs))
          <= weighted amounts fcs.
Proof.
  induction 1 as [|fc fcs Hs IH Hall]; intros r lo Hlo.
  - exists lo. split; [lia|]. intros amounts Hf. inversion Hf; subst.
    simpl. change (total_duration []) with 0. lia.
  - inversion Hlo as [|? ? Hfc Hlo']; subst.
    destruct (Z.le_gt_cases r 0) as [Hr | Hr].
    { exists lo. split; [lia|]. intros amounts Hf.
      rewrite charge_loop_nonpos by lia. simpl map. rewrite weighted_nil.
      change (total_duration []) with 0.
      pose proof (weighted_lower_bound lo amounts (fc :: fcs) Hf Hlo). lia. }
    destruct (Z.lt_ge_cases (duration (co2_period fc)) r) as [Hd | Hd].
    + destruct (IH (r - duration (co2_period fc)) (forecast fc))
        as (w & Hw & Hbound).
      { eapply Forall_impl; [|exact Hall]. intros x Hx. exact Hx. }
      exists w. split; [lia|]. intros amounts Hf.
      inversion Hf as [|a ? amounts' ? Ha Hf']; subst.
      rewrite charge_loop_whole by lia. cbn [map].
      rewrite !weighted_cons, total_duration_cons. simpl amount_sum.
      specialize (Hbound amounts' Hf'). nia.
    + exists (forecast fc). split; [lia|]. intros amounts Hf.
      inversion Hf as [|a ? amounts' ? Ha Hf']; subst.
      rewrite charge_loop_prefix by lia. cbn [map].
      rewrite duration_prefix, !weighted_cons, weighted_nil.
      rewrite total_duration_cons, duration_prefix.
      change (total_duration []) with 0. simpl amount_sum.
      assert (Hrest : Forall (fun x => forecast fc <= forecast x) fcs).
      { eapply Forall_impl; [|exact Hall]. intros x Hx. exact Hx. }
      pose proof (weighted_lower_bound (forecast fc) amounts' fcs Hf' Hrest).
      nia.
Qed.

Lemma forecast_lower_bound (fcs : list co2_forecast) :
  exists lo, Forall (fun fc => lo <= forecast fc) fcs.
Proof.
  induction fcs as [|fc fcs (lo & IH)].
  - exists 0. constructor.
  - exists (Z.min lo (forecast fc)). constructor; [lia|].
    eapply Forall_impl; [|exact IH]. intros x Hx. simpl in Hx. lia.
Qed.

(** Two sorted arrangements of the same elements coincide when no two
    elements share a key. *)
Lemma sorted_unique {A : Type} (key : A -> Z) (l l' : list A) :
  StronglySorted (key_le key) l -> StronglySorted (key_le key) l' ->
  Permutation l l' -> NoDup (map key l) -> l = l'.
Proof.
  revert l'. induction l as [|x t IH]; intros l' Hs Hs' Hperm Hnd.
  - apply Permutation_nil in Hperm. now subst.
  - destruct l' as [|y t'].
    { apply Permutation_sym, Permutation_nil in Hperm. discriminate. }
    inversion Hs as [|? ? Hst Hx]; subst.
    inversion Hs' as [|? ? Hst' Hy]; subst.
    inversion Hnd as [|? ? Hnotin Hnd']; subst.
    rewrite Forall_forall in Hx, Hy.
    assert (Hxy : x = y).
    { assert (Hin : In x (y :: t'))
        by (eapply Permutation_in; [exact Hperm | now left]).
      destruct Hin as [-> | Hin]; [reflexivity|].
      assert (Hin' : In y (x :: t))
        by (eapply Permutation_in;
            [apply Permutation_sym; exact Hperm | now left]).
      destruct Hin' as [-> | Hin']; [reflexivity|].
      exfalso. apply Hnotin.
      pose proof (Hy x Hin) as H1. pose proof (Hx y Hin') as H2.
      unfold key_le in *.
      replace (key x) with (key y) by lia. now apply in_map. }
    subst y. f_equal. apply IH; try assumption.
    eapply Permutation_cons_inv; eassumption.
Qed.

End Optimality.

(** X12: the allocator minimises emission.  When the candidates total more
    than the requirement, its intervals are those the loop takes from the
    entries sorted by intensity; and any other way of taking from each
    entry no more than its duration, with the same total, emits at least as
    much, an amount taken counting with the intensity of its entry. *)
Theorem optimize_co2_minimises_emission (periods : list period)
        (r : timedelta) (ms : list co2_measure) (amounts : list timedelta) :
  r < total_duration periods ->
  feasible amounts (sorted_co2_forecasts periods ms) ->
  amount_sum amounts = total_duration (optimize_co2 periods r ms) ->
  Permutation (optimize_co2 periods r ms)
    (charge_loop r (sorted_co2_forecasts periods ms))
  /\ weighted (map duration (charge_loop r (sorted_co2_forecasts periods ms)))
       (sorted_co2_forecasts periods ms)
     <= weighted amounts (sorted_co2_forecasts periods ms).
Proof.
  intros Hgt Hf Hsum.
  rewrite optimize_co2_greedy in * by assumption.
  rewrite total_duration_simplify in Hsum.
  split; [apply sorted_perm|].
  destruct (forecast_lower_bound (sorted_co2_forecasts periods ms))
    as (lo & Hlo).
  destruct (charge_loop_threshold (sorted_co2_forecasts periods ms)
              (sorted_sorted forecast (co2_forecasts periods ms)) r lo Hlo)
    as (w & _ & Hbound).
  specialize (Hbound amounts Hf). rewrite Hsum in Hbound. lia.
Qed.

Lemma optimize_co2_minimises_emission_witness :
  weighted
    (map duration
       (charge_loop (timedelta_minutes 300)
          (sorted_co2_forecasts candidates_example measures_example)))
    (sorted_co2_forecasts candidates_example measures_example)
  <= weighted [0; timedelta_minutes 300]
       (sorted_co2_forecasts candidates_example measures_example).
Proof.
  apply (optimize_co2_minimises_emission candidates_example
           (timedelta_minutes 300) measures_example
           [0; timedelta_minutes 300]).
  - vm_compute; reflexivity.
  - repeat constructor; vm_compute; discriminate.
  - vm_compute; reflexivity.
Defined.

(** X13: the order of the forecast records matters only through ties: when
    no two clipped entries have the same intensity, [optimize_co2] returns
    the same list for any rearrangement of the records. *)
Theorem optimize_co2_measure_order (periods : list period) (r : timedelta)
        (ms ms' : list co2_measure) :
  Permutation ms ms' ->
  NoDup (map forecast (co2_forecasts periods ms)) ->
  optimize_co2 periods r ms = optimize_co2 periods r ms'.
Proof.
  intros Hperm Hnd.
  assert (Hfc : Permutation (co2_forecasts periods ms)
                  (co2_forecasts periods ms'))
    by (unfold co2_forecasts; now apply Permutation_flat_map).
  assert (E : sorted_co2_forecasts periods ms
              = sorted_co2_forecasts periods ms').
  { unfold sorted_co2_forecasts.
    apply (sorted_unique forecast); try apply sorted_sorted.
    - eapply perm_trans; [apply sorted_perm|].
      eapply perm_trans; [exact Hfc | apply Permutation_sym, sorted_perm].
    - eapply Permutation_NoDup; [|exact Hnd].
      apply Permutation_map, Permutation_sym, sorted_perm. }
  unfold optimize_co2. now rewrite E.
Qed.

Lemma optimize_co2_measure_order_witness :
  optimize_co2 candidates_example (timedelta_minutes 300) measures_example
  = optimize_co2 candidates_example (timedelta_minutes 300)
      (rev measures_example).
Proof.
  apply optimize_co2_measure_order.
  - apply Permutation_rev.
  - vm_compute. repeat constructor; simpl; intuition discriminate.
Defined.

(* ================================================================= *)
(** ** [parse_time] *)

(** X14: [parse_time] splits by position only: on a string that ends in a
    separator and two characters, the hour is what stands before the
    separator and the minute the last two characters, whatever the
    separator is; a string of fewer than three characters has an empty hour
    part, so it is refused as soon as [int] refuses the empty string; and
    [next_datetime_with_time] on such a string is the next occurrence of the
    pair parsed. *)
Theorem parse_time_positional {char : Type} (int : list char -> option Z) :
  (forall (hh : list char) (sep m1 m2 : char),
      parse_time int (hh ++ [sep; m1; m2])
      = match int hh with
        | None => None
        | Some h =>
            match int [m1; m2] with
            | None => None
            | Some m => Some (h, m)
            end
        end)
  /\ (int [] = None ->
      forall time, (length time < 3)%nat -> parse_time int time = None)
  /\ (forall (current : datetime) (hh : list char) (sep m1 m2 : char)
             (h m : Z),
         int hh = Some h -> int [m1; m2] = Some m ->
         next_datetime_with_time_str int current (hh ++ [sep; m1; m2])
         = next_datetime_with_time current (h, m)).
Proof.
  assert (Hsplit : forall (hh : list char) (sep m1 m2 : char),
             all_but_last3 (hh ++ [sep; m1; m2]) = hh
             /\ last2 (hh ++ [sep; m1; m2]) = [m1; m2]).
  { intros hh sep m1 m2. unfold all_but_last3, last2.
    rewrite length_app. simpl length. split.
    - replace (length hh + 3 - 3)%nat with (length hh + 0)%nat by lia.
      rewrite firstn_app_2. simpl. apply app_nil_r.
    - rewrite skipn_app.
      rewrite skipn_all2 by lia.
      replace (length hh + 3 - 2 - length hh)%nat with 1%nat by lia.
      reflexivity. }
  split; [|split].
  - intros hh sep m1 m2. unfold parse_time.
    destruct (Hsplit hh sep m1 m2) as [-> ->]. reflexivity.
  - intros Hempty time Hlen. unfold parse_time, all_but_last3.
    replace (length time - 3)%nat with 0%nat by lia.
    simpl. now rewrite Hempty.
  - intros current hh sep m1 m2 h m Hh Hm.
    unfold next_datetime_with_time_str, parse_time.
    destruct (Hsplit hh sep m1 m2) as [-> ->]. now rewrite Hh, Hm.
Qed.

Lemma parse_time_positional_witness :
  parse_time int_of_digits ["0"; "7"; ":"; "0"; "0"]%char = Some (7, 0)
  /\ parse_time int_of_digits ["0"; "7"; "h"; "0"; "0"]%char = Some (7, 0)
  /\ parse_time int_of_digits ["0"; "7"]%char = None
  /\ next_datetime_with_time_str int_of_digits plug_in_minute
       ["0"; "7"; ":"; "0"; "0"]%char
     = Some deadline_minute.
Proof.
  destruct (parse_time_positional int_of_digits) as (Hpos & Hshort & Hnext).
  split; [|split; [|split]].
  - exact (Hpos ["0"; "7"]%char ":"%char "0"%char "0"%char).
  - exact (Hpos ["0"; "7"]%char "h"%char "0"%char "0"%char).
  - apply Hshort; [reflexivity | simpl; lia].
  - refine (eq_trans
              (Hnext plug_in_minute ["0"; "7"]%char ":"%char "0"%char
                 "0"%char 7 0 eq_refl eq_refl) _).
    vm_compute. reflexivity.
Defined.

(* ================================================================= *)
(** ** Forecast coverage and repeated lookups *)

Section CoverageFacts.

Lemma co2_forecasts_app (periods : list period) (ms1 ms2 : list co2_measure) :
  co2_forecasts periods (ms1 ++ ms2)
  = co2_forecasts periods ms1 ++ co2_forecasts periods ms2.
Proof. unfold co2_forecasts. apply flat_map_app. Qed.

(** A record that, moved one week on, touches no period is clipped to
    nothing. *)
Lemma clip_untouched (co2 : co2_measure) (periods : list period) :
  Forall (fun p => utc (snd p) < utc (co2_from co2) + shift_to_forecast
                   \/ utc (co2_to co2) + shift_to_forecast < utc (fst p))
         periods ->
  flat_map (clip co2) periods = [].
Proof.
  induction 1 as [|[pf pt] periods Hp _ IH]; simpl; [reflexivity|].
  rewrite IH, app_nil_r. unfold dt_leb. rewrite !utc_dt_add. simpl in Hp.
  destruct (Z.leb_spec (utc (co2_from co2) + shift_to_forecast) (utc pt));
    destruct (Z.leb_spec (utc pf) (utc (co2_to co2) + shift_to_forecast));
    simpl; try reflexivity; lia.
Qed.

(** A clipped entry lies within the record it comes from, moved one week
    on. *)
Lemma co2_forecasts_within_measure (periods : list period)
      (ms : list co2_measure) (fc : co2_forecast) :
  In fc (co2_forecasts periods ms) ->
  exists co2,
    In co2 ms
    /\ utc (co2_from co2) + shift_to_forecast <= utc (fc_from fc)
    /\ utc (fc_to fc) <= utc (co2_to co2) + shift_to_forecast.
Proof.
  intros H. apply in_co2_forecasts in H.
  destruct H as (co2 & p & Hco2 & _ & Hfc).
  apply in_clip in Hfc. destruct Hfc as (-> & _ & _).
  exists co2. split; [assumption|]. simpl.
  rewrite utc_dt_max, utc_dt_min, !utc_dt_add. lia.
Qed.

End CoverageFacts.

(** X15: a forecast record that, moved one week on, touches none of the
    candidates has no influence: [optimize_co2] returns the same list with
    and without it. *)
Theorem optimize_co2_ignores_untouched (periods : list period)
        (r : timedelta) (ms1 ms2 : list co2_measure) (co2 : co2_measure) :
  Forall (fun p => utc (snd p) < utc (co2_from co2) + shift_to_forecast
                   \/ utc (co2_to co2) + shift_to_forecast < utc (fst p))
         periods ->
  optimize_co2 periods r (ms1 ++ co2 :: ms2)
  = optimize_co2 periods r (ms1 ++ ms2).
Proof.
  intros Hun.
  assert (E : co2_forecasts periods (ms1 ++ co2 :: ms2)
              = co2_forecasts periods (ms1 ++ ms2)).
  { rewrite !co2_forecasts_app. f_equal.
    change (co2 :: ms2) with ([co2] ++ ms2). rewrite co2_forecasts_app.
    unfold co2_forecasts at 1. simpl.
    now rewrite clip_untouched, app_nil_r by assumption. }
  unfold optimize_co2, sorted_co2_forecasts. now rewrite E.
Qed.

Lemma optimize_co2_ignores_untouched_witness :
  optimize_co2 candidates_example (timedelta_minutes 300)
    (measures_example
       ++ mk_co2_measure (datetime_of 2019 10 5 0 30 0 0 0)
            (datetime_of 2019 10 5 7 0 0 0 0) 1 :: [])
  = optimize_co2 candidates_example (timedelta_minutes 300)
      (measures_example ++ []).
Proof.
  apply optimize_co2_ignores_untouched.
  constructor; [left; vm_compute; reflexivity | constructor].
Defined.

(** X16: when the candidates total more than the requirement, every
    interval the allocator returns lies within one of the forecast records
    moved one week on: no time outside the forecasts is ever allocated. *)
Theorem optimize_co2_within_forecasts (periods : list period) (r : timedelta)
        (ms : list co2_measure) (q : period) :
  r < total_duration periods ->
  In q (optimize_co2 periods r ms) ->
  exists co2,
    In co2 ms
    /\ utc (co2_from co2) + shift_to_forecast <= utc (fst q)
    /\ utc (snd q) <= utc (co2_to co2) + shift_to_forecast.
Proof.
  intros Hgt Hq. rewrite optimize_co2_greedy in Hq by assumption.
  apply sorted_in in Hq. apply charge_loop_in in Hq.
  destruct Hq as (fc & Hfc & Hfrom & Hto).
  apply sorted_in in Hfc. apply co2_forecasts_within_measure in Hfc.
  destruct Hfc as (co2 & Hin & H1 & H2).
  exists co2. split; [assumption|]. rewrite Hfrom. lia.
Qed.

Lemma optimize_co2_within_forecasts_witness :
  exists co2,
    In co2 measures_example
    /\ utc (co2_from co2) + shift_to_forecast
       <= utc (datetime_of 2019 10 5 0 30 0 0 0)
    /\ utc (datetime_of 2019 10 5 5 30 0 0 0)
       <= utc (co2_to co2) + shift_to_forecast.
Proof.
  apply (optimize_co2_within_forecasts candidates_example
           (timedelta_minutes 300) measures_example
           (datetime_of 2019 10 5 0 30 0 0 0,
            datetime_of 2019 10 5 5 30 0 0 0)).
  - vm_compute; reflexivity.
  - vm_compute. right. left. reflexivity.
Defined.

(** X17: looking up the same wall-clock time again from the instant
    returned moves exactly one day on. *)
Theorem next_datetime_with_time_again (current : datetime)
        (time : wall_clock) (r : datetime) :
  next_datetime_with_time current time = Some r ->
  next_datetime_with_time r time = Some (dt_add r (timedelta_days 1)).
Proof.
  intros H.
  destruct (next_datetime_with_time_inv _ _ _ H) as (Hv & _ & _).
  destruct (next_datetime_with_time_fields _ _ _ H) as (Hh & Hm & _ & _).
  destruct time as [hh mm]. simpl in Hh, Hm.
  unfold next_datetime_with_time, replace.
  rewrite (proj2 (valid_timeb_iff (hh, mm)) Hv).
  rewrite Hh, Hm, !Z.sub_diag, !Z.mul_0_l, !Z.add_0_r.
  unfold dt_leb, utc. cbn [local_us utcoffset].
  rewrite Z.leb_refl. destruct r. reflexivity.
Qed.

Lemma next_datetime_with_time_again_witness :
  next_datetime_with_time deadline_minute (7, 0)
  = Some (dt_add deadline_minute (timedelta_days 1)).
Proof.
  apply (next_datetime_with_time_again plug_in_minute).
  vm_compute. reflexivity.
Defined.
